(** * Lexical playground customisation layer

    A shallow embedding of the playground glue code: the [ImageNode]
    decorator node, the [ImageComponent] / [LazyImage] React components,
    the [InsertLayoutDialog], the [OnChangePlugin] update listener and the
    local-storage wiring of [App].

    JavaScript values are modelled as follows.
    - [number] is a rational ([Q]); a product or a quotient is the exact
      one rounded to the nearest binary64 number, as the machine does.
      NaN, the infinities and overflow are left out.
    - [string] is a Rocq [string].
    - [T | null | undefined] is [option T].
    - the browser's [localStorage] is a finite map from strings to strings.
    - objects with identity that the code shares and mutates (the nested
      caption editors) live in a store and are named by their address. *)

From Stdlib Require Import QArith Qround Qpower Lqa ZArith Ascii String.
From stdpp Require Import gmap strings list pretty.

#[local] Open Scope string_scope.

(** ** JavaScript built-ins used by the sources *)

Module JS.

Definition number : Type := Q.

(** [ToBoolean] on a number: [0] is the falsy one. *)
Definition number_truthy (n : number) : bool := negb (Qeq_bool n 0).

(** [ToBoolean] on a [string | null | undefined]. *)
Definition string_truthy (s : option string) : bool :=
  match s with
  | Some (String _ _) => true
  | Some EmptyString | None => false
  end.

(** [a || b] where [a] is an optional string and [b] a string. *)
Definition string_or (a : option string) (b : string) : string :=
  match a with
  | Some (String c r) => String c r
  | Some EmptyString | None => b
  end.

(** [a ?? b] *)
Definition nullish {A} (a : option A) (b : A) : A :=
  match a with Some v => v | None => b end.

Definition lower_ascii (c : ascii) : ascii :=
  let n := N_of_ascii c in
  if ((65 <=? n) && (n <=? 90))%N then ascii_of_N (n + 32) else c.

(** [String.prototype.toLowerCase], on the ASCII letters. *)
Fixpoint toLowerCase (s : string) : string :=
  match s with
  | EmptyString => EmptyString
  | String c r => String (lower_ascii c) (toLowerCase r)
  end.

Definition startsWith (s search : string) : bool := String.prefix search s.

Definition endsWith (s search : string) : bool :=
  String.prefix (String.rev search) (String.rev s).

(** Arithmetic on doubles. [2^e], the exponent [floor (log2 x)] of a
    positive number, and the exponent of the unit in the last place of the
    binary64 numbers around it: 53 significant bits, subnormal below
    [2^-1022]. *)
Definition pow2 (e : Z) : number := (2 ^ e)%Q.

Definition log2_floor (x : number) : Z :=
  let e := (Z.log2 (Qnum x) - Z.log2 (Zpos (Qden x)))%Z in
  if Qle_bool (pow2 e) x then e else (e - 1)%Z.

Definition ulp_exponent (x : number) : Z :=
  Z.max (log2_floor x - 52) (-1074).

(** The nearest integer, ties to the even one. *)
Definition round_half_even (t : Q) : Z :=
  let f := Qfloor t in
  match (t - inject_Z f ?= 1 # 2)%Q with
  | Lt => f
  | Gt => (f + 1)%Z
  | Eq => if Z.even f then f else (f + 1)%Z
  end.

(** The binary64 number nearest to an exact result (round to nearest, ties
    to even). *)
Definition to_double_pos (x : number) : number :=
  let k := ulp_exponent x in
  (inject_Z (round_half_even (x / pow2 k)) * pow2 k)%Q.

Definition to_double (x : number) : number :=
  match Qnum x with
  | Z0 => 0%Q
  | Zpos _ => to_double_pos x
  | Zneg _ => (- to_double_pos (- x))%Q
  end.

(** [a * b] and [a / b] on numbers. *)
Definition mul (a b : number) : number := to_double (a * b)%Q.

Definition div (a b : number) : number := to_double (a / b)%Q.

(** [Math.round]: the nearest integer, ties towards +infinity. *)
Definition Math_round (x : number) : number :=
  inject_Z (Qfloor (x + (1 # 2))).

(** Conversion of a value to a [DOMString] argument of a Web API:
    [null] becomes the four-letter string. *)
Definition DOMString (s : option string) : string :=
  match s with Some v => v | None => "null" end.

End JS.

(** The size of an image side: the string ['inherit'] or a number. *)
Inductive Dim : Type :=
| Inherit
| Num (n : JS.number).

(** [d || 'inherit'] for an optional ['inherit' | number]. *)
Definition dim_or_inherit (d : option Dim) : Dim :=
  match d with
  | None => Inherit
  | Some Inherit => Inherit
  | Some (Num n) => if JS.number_truthy n then Num n else Inherit
  end.

(** An unsigned integer of the DOM, read as a number. *)
Definition N_number (n : N) : JS.number := inject_Z (Z.of_N n).

(** ** The host: what the sources take from JavaScript and from Lexical *)

Class Host : Type := {
  (** [Number.prototype.toString] *)
  Number_toString : JS.number -> string;
  (** Lexical's [EditorState] and the result of its [toJSON] *)
  EditorState : Type;
  SerializedEditorState : Type;
  (** the state of an editor made by [createEditor] *)
  emptyEditorState : EditorState;
  EditorState_toJSON : EditorState -> SerializedEditorState;
  parseEditorState : SerializedEditorState -> EditorState;
  (** the number of node keys that parsing a serialized state draws from
      the key counter, one for each node below the root *)
  parsedNodeKeys : SerializedEditorState -> nat;
  EditorState_isEmpty : EditorState -> bool;
  JSON_stringify : SerializedEditorState -> string;
  (** [$generateHtmlFromNodes(editor)], read in the given state *)
  generateHtmlFromNodes : EditorState -> string;
}.

Definition Dim_toString `{Host} (d : Dim) : string :=
  match d with
  | Inherit => "inherit"
  | Num n => Number_toString n
  end.

(** ** The DOM, as far as the sources touch it *)

Module DOM.

Record Element : Type := {
  localName : string;
  attributes : list (string * string);
}.

Definition createElement (name : string) : Element :=
  {| localName := name; attributes := [] |}.

Fixpoint set_attr (attrs : list (string * string)) (name value : string)
  : list (string * string) :=
  match attrs with
  | [] => [(name, value)]
  | (n, v) :: rest =>
      if String.eqb n name then (n, value) :: rest
      else (n, v) :: set_attr rest name value
  end.

Fixpoint get_attr (attrs : list (string * string)) (name : string)
  : option string :=
  match attrs with
  | [] => None
  | (n, v) :: rest => if String.eqb n name then Some v else get_attr rest name
  end.

Definition setAttribute (e : Element) (name value : string) : Element :=
  {| localName := localName e;
     attributes := set_attr (attributes e) name value |}.

Definition getAttribute (e : Element) (name : string) : option string :=
  get_attr (attributes e) name.

(** The parent of an element, of which only the tag name is read. *)
Record ParentElement : Type := { tagName : string }.

(** An [HTMLImageElement] handed to a DOM importer. [width] and [height]
    are the IDL attributes, unsigned integers. *)
Record HTMLImageElement : Type := {
  src : string;
  alt : string;
  width : N;
  height : N;
  className : string;
  parentElement : option ParentElement;
  previousSibling : option string;
  img_attributes : list (string * string);
}.

Definition img_getAttribute (img : HTMLImageElement) (name : string)
  : option string :=
  get_attr (img_attributes img) name.

End DOM.

(** ** The store of Lexical objects *)

Definition NodeKey : Type := string.

(** A [LexicalEditor] is an object with identity: its address in the store. *)
Definition LexicalEditor : Type := nat.

(** The fields of the class [ImageNode] (nodes/ImageNode.tsx), with the key
    it inherits from [LexicalNode]. *)
Record ImageNode : Type := {
  __key : NodeKey;
  __src : string;
  __altText : string;
  __width : Dim;
  __height : Dim;
  __maxWidth : JS.number;
  __showCaption : bool;
  __imgRounded : bool;
  __imgZoomable : bool;
  __caption : LexicalEditor;
  __captionsEnabled : bool;
  __title : option string;
  __className : option string;
}.

(** What [$getNodeByKey] can find: an image node or a node of another
    class, of which only the type name is kept. *)
Inductive LexicalNode : Type :=
| IsImageNode (n : ImageNode)
| OtherNode (type : string).

Record EditorObj `{Host} : Type := {
  ed_namespace : string;
  ed_nodes : list string;
  ed_state : EditorState;
}.

(** The mutable objects the sources reach: the key counter, the nested
    editors and the node map of the editor state under update. *)
Record World `{Host} : Type := {
  keyCounter : nat;
  editorCounter : nat;
  editors : gmap nat EditorObj;
  nodeMap : gmap NodeKey LexicalNode;
}.

#[global] Instance EditorObj_inhabited `{Host} : Inhabited EditorObj :=
  populate {| ed_namespace := ""; ed_nodes := []; ed_state := emptyEditorState |}.

(** Code that reads and writes the store. *)
Definition M `{Host} (A : Type) : Type := World -> A * World.

Definition ret `{Host} {A} (a : A) : M A := fun w => (a, w).

Definition bind `{Host} {A B} (m : M A) (f : A -> M B) : M B :=
  fun w => let (a, w') := m w in f a w'.

Notation "x <- m ;; k" := (bind m (fun x => k))
  (at level 100, m at next level, right associativity).

Section Framework.
Context `{Host}.

(** Modelled from the spec: the base [LexicalNode] constructor and its
    [$setNodeKey], which the spec leaves to the editor framework and which
    are not among the sources. A key that is given is kept. Otherwise a
    fresh key is drawn from the counter and the node object is put under it
    in the node map; since the fields are assigned to that same object
    afterwards, the entry is written by [registerNode] once they are. *)
Definition setNodeKey (key : option NodeKey) : M NodeKey :=
  fun w =>
    match key with
    | Some k => (k, w)
    | None =>
        (pretty (keyCounter w),
         {| keyCounter := S (keyCounter w);
            editorCounter := editorCounter w;
            editors := editors w;
            nodeMap := nodeMap w |})
    end.

(** Modelled from the spec: the framework's [createEditor], not among the
    sources. It allocates an editor object with an empty state. *)
Definition createEditor (ns : string) (ns_nodes : list string)
  : M LexicalEditor :=
  fun w =>
    (editorCounter w,
     {| keyCounter := keyCounter w;
        editorCounter := S (editorCounter w);
        editors :=
          <[editorCounter w :=
              {| ed_namespace := ns; ed_nodes := ns_nodes;
                 ed_state := emptyEditorState |}]> (editors w);
        nodeMap := nodeMap w |}).

(** Modelled from the spec: the framework's [editor.getEditorState] and
    [editor.setEditorState], not among the sources. *)
Definition getEditorState (e : LexicalEditor) : M EditorState :=
  fun w => (ed_state (editors w !!! e), w).

Definition setEditorState (e : LexicalEditor) (s : EditorState) : M unit :=
  fun w =>
    (tt,
     {| keyCounter := keyCounter w;
        editorCounter := editorCounter w;
        editors :=
          <[e := {| ed_namespace := ed_namespace (editors w !!! e);
                    ed_nodes := ed_nodes (editors w !!! e);
                    ed_state := s |}]> (editors w);
        nodeMap := nodeMap w |}).

(** Modelled from the spec: the framework's [$getNodeByKey], not among the
    sources. It looks the key up in the node map. *)
Definition getNodeByKey (key : NodeKey) : M (option LexicalNode) :=
  fun w => (nodeMap w !! key, w).

(** A field assignment on a node object: the object is the entry of the
    node map under its key. *)
Definition storeNode (n : ImageNode) : M unit :=
  fun w =>
    (tt,
     {| keyCounter := keyCounter w;
        editorCounter := editorCounter w;
        editors := editors w;
        nodeMap := <[__key n := IsImageNode n]> (nodeMap w) |}).

(** The second half of [$setNodeKey] on a fresh key: the node object, with
    the fields the constructor gave it, is the entry of the node map under
    its key. With a given key nothing is registered. *)
Definition registerNode (key : option NodeKey) (n : ImageNode) : M unit :=
  match key with
  | Some _ => ret tt
  | None => storeNode n
  end.

(** Modelled from the spec: the framework's [editor.parseEditorState], not
    among the sources. It builds the state and draws a key from the shared
    counter for each node that it creates. *)
Definition editor_parseEditorState (s : SerializedEditorState)
  : M EditorState :=
  fun w =>
    (parseEditorState s,
     {| keyCounter := (keyCounter w + parsedNodeKeys s)%nat;
        editorCounter := editorCounter w;
        editors := editors w;
        nodeMap := nodeMap w |}).

(** Modelled from the spec: the framework's [$applyNodeReplacement], not
    among the sources. The playground registers no replacement for
    [ImageNode], so the node comes back as it is. *)
Definition applyNodeReplacement (n : ImageNode) : M ImageNode := ret n.

End Framework.

(** ** nodes/ImageNode.tsx *)

Module ImagePayload.
Record t : Type := mk {
  altText : string;
  caption : option LexicalEditor;
  height : option JS.number;
  key : option NodeKey;
  maxWidth : option JS.number;
  showCaption : option bool;
  imgRounded : option bool;
  imgZoomable : option bool;
  src : string;
  width : option JS.number;
  captionsEnabled : option bool;
  title : option string;
  className : option string;
}.
End ImagePayload.

(** [SerializedEditor], of which the sources read [editorState]. *)
Record SerializedEditor `{Host} : Type := {
  ser_editorState : SerializedEditorState;
}.

Module SerializedImageNode.
Record t `{Host} : Type := mk {
  type : string;
  version : nat;
  altText : string;
  caption : SerializedEditor;
  height : option JS.number;
  maxWidth : JS.number;
  showCaption : bool;
  imgRounded : bool;
  imgZoomable : bool;
  src : string;
  width : option JS.number;
  title : string;
  className : string;
}.
End SerializedImageNode.

(** The props of [ImageComponent] (nodes/ImageComponent.tsx). *)
Module ImageComponentProps.
Record t : Type := mk {
  src : string;
  altText : string;
  nodeKey : NodeKey;
  width : Dim;
  height : Dim;
  maxWidth : JS.number;
  resizable : bool;
  showCaption : bool;
  imgRounded : bool;
  imgZoomable : bool;
  caption : LexicalEditor;
  captionsEnabled : bool;
  title : option string;
  className : option string;
}.
End ImageComponentProps.

Record DOMExportOutput : Type := { element : DOM.Element }.

Record DOMConversionOutput : Type := { node : ImageNode }.

(** [b || false] for an optional boolean. *)
Definition bool_or_false (b : option bool) : bool :=
  match b with Some true => true | Some false | None => false end.

Definition is_undefined {A} (a : option A) : bool :=
  match a with None => true | Some _ => false end.

Module ImageNode.
Section WithHost.
Context `{Host}.

Definition isGoogleDocCheckboxImg (img : DOM.HTMLImageElement) : bool :=
  match DOM.parentElement img with
  | None => false
  | Some parent =>
      String.eqb (DOM.tagName parent) "LI"
      && is_undefined (DOM.previousSibling img)
      && bool_decide (DOM.img_getAttribute img "aria-roledescription"
                      = Some "checkbox")
  end.

Definition getType : string := "image".

Definition constructor
    (src altText : string) (maxWidth : JS.number)
    (width height : option Dim)
    (showCaption imgRounded imgZoomable : option bool)
    (caption : option LexicalEditor) (captionsEnabled : option bool)
    (key : option NodeKey) (title className : option string)
  : M ImageNode :=
  k <- setNodeKey key ;;
  c <- match caption with
       | Some c => ret c
       | None =>
           createEditor "Playground/ImageNodeCaption"
             ["RootNode"; "TextNode"; "LineBreakNode"; "ParagraphNode";
              "LinkNode"; "EmojiNode"; "HashtagNode"; "KeywordNode"]
       end ;;
  let this :=
    {| __key := k;
       __src := src;
       __altText := altText;
       __maxWidth := maxWidth;
       __width := dim_or_inherit width;
       __height := dim_or_inherit height;
       __showCaption := bool_or_false showCaption;
       __imgRounded := bool_or_false imgRounded;
       __imgZoomable := bool_or_false imgZoomable;
       __caption := c;
       __captionsEnabled :=
         bool_or_false captionsEnabled || is_undefined captionsEnabled;
       __title := title;
       __className := className |} in
  _ <- registerNode key this ;;
  ret this.

Definition clone (node : ImageNode) : M ImageNode :=
  constructor
    (__src node) (__altText node) (__maxWidth node)
    (Some (__width node)) (Some (__height node))
    (Some (__showCaption node)) (Some (__imgRounded node))
    (Some (__imgZoomable node)) (Some (__caption node))
    (Some (__captionsEnabled node)) (Some (__key node))
    (__title node) (__className node).

(** [$createImageNode] *)
Definition createImageNode (p : ImagePayload.t) : M ImageNode :=
  n <- constructor
         (ImagePayload.src p) (ImagePayload.altText p)
         (JS.nullish (ImagePayload.maxWidth p) 500%Q)
         (Num <$> ImagePayload.width p) (Num <$> ImagePayload.height p)
         (ImagePayload.showCaption p) (ImagePayload.imgRounded p)
         (ImagePayload.imgZoomable p) (ImagePayload.caption p)
         (ImagePayload.captionsEnabled p) (ImagePayload.key p)
         (ImagePayload.title p) (ImagePayload.className p) ;;
  applyNodeReplacement n.

(** [$convertImageElement] *)
Definition convertImageElement (img : DOM.HTMLImageElement)
  : M (option DOMConversionOutput) :=
  if JS.startsWith (DOM.src img) "file:///" || isGoogleDocCheckboxImg img
  then ret None
  else
    n <- createImageNode
           {| ImagePayload.altText := DOM.alt img;
              ImagePayload.height := Some (N_number (DOM.height img));
              ImagePayload.src := DOM.src img;
              ImagePayload.width := Some (N_number (DOM.width img));
              ImagePayload.className := Some (DOM.className img);
              ImagePayload.caption := None;
              ImagePayload.key := None;
              ImagePayload.maxWidth := None;
              ImagePayload.showCaption := None;
              ImagePayload.imgRounded := None;
              ImagePayload.imgZoomable := None;
              ImagePayload.captionsEnabled := None;
              ImagePayload.title := None |} ;;
    ret (Some {| node := n |}).

(** Modelled from the spec: the framework's [LexicalNode.updateFromJSON],
    not among the sources. It restores the node state kept under the [$]
    key of the serialized node; [ImageNode] declares none. *)
Definition super_updateFromJSON (node : ImageNode)
    (serializedNode : SerializedImageNode.t) : ImageNode := node.

Definition updateFromJSON (this : ImageNode)
    (serializedNode : SerializedImageNode.t) : M ImageNode :=
  let node := super_updateFromJSON this serializedNode in
  let caption := SerializedImageNode.caption serializedNode in
  let nestedEditor := __caption node in
  editorState <- editor_parseEditorState (ser_editorState caption) ;;
  _ <- (if negb (EditorState_isEmpty editorState)
        then setEditorState nestedEditor editorState
        else ret tt) ;;
  ret node.

Definition importJSON (serializedNode : SerializedImageNode.t)
  : M ImageNode :=
  n <- createImageNode
         {| ImagePayload.altText := SerializedImageNode.altText serializedNode;
            ImagePayload.height := SerializedImageNode.height serializedNode;
            ImagePayload.maxWidth :=
              Some (SerializedImageNode.maxWidth serializedNode);
            ImagePayload.showCaption :=
              Some (SerializedImageNode.showCaption serializedNode);
            ImagePayload.imgRounded :=
              Some (SerializedImageNode.imgRounded serializedNode);
            ImagePayload.imgZoomable :=
              Some (SerializedImageNode.imgZoomable serializedNode);
            ImagePayload.src := SerializedImageNode.src serializedNode;
            ImagePayload.width := SerializedImageNode.width serializedNode;
            ImagePayload.title :=
              Some (SerializedImageNode.title serializedNode);
            ImagePayload.className :=
              Some (SerializedImageNode.className serializedNode);
            ImagePayload.caption := None;
            ImagePayload.key := None;
            ImagePayload.captionsEnabled := None |} ;;
  updateFromJSON n serializedNode.

Definition exportDOM (this : ImageNode) : DOMExportOutput :=
  let element := DOM.createElement "img" in
  let element := DOM.setAttribute element "src" (__src this) in
  let element := DOM.setAttribute element "alt" (__altText this) in
  let element := DOM.setAttribute element "width" (Dim_toString (__width this)) in
  let element :=
    DOM.setAttribute element "height" (Dim_toString (__height this)) in
  let element :=
    DOM.setAttribute element "title" (JS.string_or (__title this) "") in
  let element :=
    DOM.setAttribute element "class" (JS.string_or (__className this) "") in
  let element :=
    DOM.setAttribute element "data-rounded"
      (if __imgRounded this then "1" else "0") in
  let element :=
    DOM.setAttribute element "data-zoomable"
      (if __imgZoomable this then "1" else "0") in
  {| element := element |}.

Definition getSrc (this : ImageNode) : string := __src this.

Definition getAltText (this : ImageNode) : string := __altText this.

Definition getKey (this : ImageNode) : NodeKey := __key this.

(** [caption.toJSON()] *)
Definition caption_toJSON (e : LexicalEditor) : M SerializedEditor :=
  st <- getEditorState e ;;
  ret {| ser_editorState := EditorState_toJSON st |}.

Definition exportJSON (this : ImageNode) : M SerializedImageNode.t :=
  caption <- caption_toJSON (__caption this) ;;
  ret {| SerializedImageNode.type := getType;
         SerializedImageNode.version := 1;
         SerializedImageNode.altText := getAltText this;
         SerializedImageNode.caption := caption;
         SerializedImageNode.height :=
           Some (match __height this with Inherit => 0%Q | Num n => n end);
         SerializedImageNode.maxWidth := __maxWidth this;
         SerializedImageNode.showCaption := __showCaption this;
         SerializedImageNode.imgRounded := __imgRounded this;
         SerializedImageNode.imgZoomable := __imgZoomable this;
         SerializedImageNode.src := getSrc this;
         SerializedImageNode.width :=
           Some (match __width this with Inherit => 0%Q | Num n => n end);
         SerializedImageNode.title := JS.string_or (__title this) "";
         SerializedImageNode.className :=
           JS.string_or (__className this) "" |}.

Definition decorate (this : ImageNode) : ImageComponentProps.t :=
  {| ImageComponentProps.src := __src this;
     ImageComponentProps.altText := __altText this;
     ImageComponentProps.width := __width this;
     ImageComponentProps.height := __height this;
     ImageComponentProps.maxWidth := __maxWidth this;
     ImageComponentProps.nodeKey := getKey this;
     ImageComponentProps.showCaption := __showCaption this;
     ImageComponentProps.imgRounded := __imgRounded this;
     ImageComponentProps.imgZoomable := __imgZoomable this;
     ImageComponentProps.caption := __caption this;
     ImageComponentProps.captionsEnabled := __captionsEnabled this;
     ImageComponentProps.title := __title this;
     ImageComponentProps.className := __className this;
     ImageComponentProps.resizable := true |}.

(** The mutators. [getWritable] belongs to Lexical: it hands out the node
    object that the running update may write to. Each assignment to one of
    its fields is a write to that object in the node map. *)
Variable getWritable : ImageNode -> M ImageNode.

Definition setWidthAndHeight (this : ImageNode) (width height : Dim)
  : M unit :=
  writable <- getWritable this ;;
  let writable :=
    {| __width := width;
       __key := __key writable; __src := __src writable;
       __altText := __altText writable; __height := __height writable;
       __maxWidth := __maxWidth writable;
       __showCaption := __showCaption writable;
       __imgRounded := __imgRounded writable;
       __imgZoomable := __imgZoomable writable;
       __caption := __caption writable;
       __captionsEnabled := __captionsEnabled writable;
       __title := __title writable; __className := __className writable |} in
  _ <- storeNode writable ;;
  let writable :=
    {| __height := height;
       __key := __key writable; __src := __src writable;
       __altText := __altText writable; __width := __width writable;
       __maxWidth := __maxWidth writable;
       __showCaption := __showCaption writable;
       __imgRounded := __imgRounded writable;
       __imgZoomable := __imgZoomable writable;
       __caption := __caption writable;
       __captionsEnabled := __captionsEnabled writable;
       __title := __title writable; __className := __className writable |} in
  storeNode writable.

Definition setShowCaption (this : ImageNode) (showCaption : bool) : M unit :=
  writable <- getWritable this ;;
  storeNode
    {| __showCaption := showCaption;
       __key := __key writable; __src := __src writable;
       __altText := __altText writable; __width := __width writable;
       __height := __height writable; __maxWidth := __maxWidth writable;
       __imgRounded := __imgRounded writable;
       __imgZoomable := __imgZoomable writable;
       __caption := __caption writable;
       __captionsEnabled := __captionsEnabled writable;
       __title := __title writable; __className := __className writable |}.

Definition setImgRounded (this : ImageNode) (imgRounded : bool) : M unit :=
  writable <- getWritable this ;;
  storeNode
    {| __imgRounded := imgRounded;
       __key := __key writable; __src := __src writable;
       __altText := __altText writable; __width := __width writable;
       __height := __height writable; __maxWidth := __maxWidth writable;
       __showCaption := __showCaption writable;
       __imgZoomable := __imgZoomable writable;
       __caption := __caption writable;
       __captionsEnabled := __captionsEnabled writable;
       __title := __title writable; __className := __className writable |}.

Definition setImgZoomable (this : ImageNode) (imgZoomable : bool) : M unit :=
  writable <- getWritable this ;;
  storeNode
    {| __imgZoomable := imgZoomable;
       __key := __key writable; __src := __src writable;
       __altText := __altText writable; __width := __width writable;
       __height := __height writable; __maxWidth := __maxWidth writable;
       __showCaption := __showCaption writable;
       __imgRounded := __imgRounded writable;
       __caption := __caption writable;
       __captionsEnabled := __captionsEnabled writable;
       __title := __title writable; __className := __className writable |}.

End WithHost.
End ImageNode.

(** ** nodes/ImageComponent.tsx *)

Module ImageComponent.

Definition isSVG (src : string) : bool :=
  JS.endsWith (JS.toLowerCase src) ".svg".

(** The [dimensions] state of [LazyImage]. It is only ever set from the
    [naturalWidth] and [naturalHeight] of the image element, which are
    unsigned integers. *)
Record Dimensions : Type := {
  dimensions_width : N;
  dimensions_height : N;
}.

(** [n || d] for an optional number. *)
Definition number_or (n : option JS.number) (d : JS.number) : JS.number :=
  match n with
  | Some v => if JS.number_truthy v then v else d
  | None => d
  end.

(** [a > b] *)
Definition gt (a b : JS.number) : bool := negb (Qle_bool a b).

Record ImageStyle : Type := {
  style_height : Dim;
  style_maxWidth : JS.number;
  style_width : Dim;
}.

Definition calculateDimensions
    (src : string) (width height : Dim) (maxWidth : JS.number)
    (dimensions : option Dimensions) : ImageStyle :=
  let isSVGImage := isSVG src in
  if negb isSVGImage then
    {| style_height := height;
       style_maxWidth := maxWidth;
       style_width := width |}
  else
    let naturalWidth :=
      number_or (N_number ∘ dimensions_width <$> dimensions) 200%Q in
    let naturalHeight :=
      number_or (N_number ∘ dimensions_height <$> dimensions) 200%Q in
    let finalWidth := naturalWidth in
    let finalHeight := naturalHeight in
    let '(finalWidth, finalHeight) :=
      if gt finalWidth maxWidth then
        let scale := JS.div maxWidth finalWidth in
        (maxWidth, JS.Math_round (JS.mul finalHeight scale))
      else (finalWidth, finalHeight) in
    let maxHeight := 500%Q in
    let '(finalWidth, finalHeight) :=
      if gt finalHeight maxHeight then
        let scale := JS.div maxHeight finalHeight in
        (JS.Math_round (JS.mul finalWidth scale), maxHeight)
      else (finalWidth, finalHeight) in
    {| style_height := Num finalHeight;
       style_maxWidth := maxWidth;
       style_width := Num finalWidth |}.

(** The props [ImageComponent] hands to [LazyImage]. *)
Record LazyImageProps : Type := {
  lazy_otherClassName : option string;
  lazy_className : option string;
  lazy_src : string;
  lazy_altText : string;
  lazy_title : option string;
  lazy_width : Dim;
  lazy_height : Dim;
  lazy_maxWidth : JS.number;
  lazy_imgRounded : bool;
}.

(** The [img] element [LazyImage] renders. *)
Record LazyImg : Type := {
  img_className : string;
  img_title : option string;
  img_src : string;
  img_alt : string;
  img_style : ImageStyle;
  img_data_rounded : string;
  img_draggable : string;
}.

(** [useSuspenseImage]: a source that is not in the image cache suspends
    the render ([None]); the enclosing [Suspense] then shows its fallback. *)
Definition LazyImage (imageCache : gset string) (p : LazyImageProps)
    (dimensions : option Dimensions) : option LazyImg :=
  if bool_decide (lazy_src p ∈ imageCache) then
    Some
      {| img_className :=
           JS.string_or (lazy_otherClassName p) "" +:+ " "
           +:+ JS.string_or (lazy_className p) "";
         img_title :=
           if JS.string_truthy (lazy_title p) then lazy_title p else None;
         img_src := lazy_src p;
         img_alt := lazy_altText p;
         img_style :=
           calculateDimensions (lazy_src p) (lazy_width p) (lazy_height p)
             (lazy_maxWidth p) dimensions;
         img_data_rounded := if lazy_imgRounded p then "1" else "0";
         img_draggable := "false" |}
  else None.

(** The state of one [ImageComponent]: its [useState] cells and the values
    of the hooks it reads. [selection] holds a node selection or null. *)
Record State : Type := {
  isSelected : bool;
  isResizing : bool;
  selection : option (list NodeKey);
  isLoadError : bool;
  isEditable : bool;
}.

Definition initialState (selected editable : bool) : State :=
  {| isSelected := selected;
     isResizing := false;
     selection := None;
     isLoadError := false;
     isEditable := editable |}.

(** [$isNodeSelection(selection)] on the [selection] cell *)
Definition isNodeSelection (s : option (list NodeKey)) : bool :=
  match s with Some _ => true | None => false end.

Inductive ImageSlot : Type :=
| BrokenImage
| LazyImageElement (p : LazyImageProps).

Record ImageResizerProps : Type := {
  resizer_showCaption : bool;
  resizer_imgRounded : bool;
  resizer_imgZoomable : bool;
  resizer_maxWidth : JS.number;
  resizer_captionsEnabled : bool;
}.

(** What [ImageComponent] returns inside its [Suspense]. *)
Record View : Type := {
  view_draggable : bool;
  view_image : ImageSlot;
  view_caption : option LexicalEditor;
  view_resizer : option ImageResizerProps;
}.

Definition render (props : ImageComponentProps.t) (st : State) : View :=
  let draggable :=
    isSelected st && isNodeSelection (selection st) && negb (isResizing st) in
  let isFocused := (isSelected st || isResizing st) && isEditable st in
  {| view_draggable := draggable;
     view_image :=
       if isLoadError st then BrokenImage
       else
         LazyImageElement
           {| lazy_otherClassName :=
                Some (JS.nullish (ImageComponentProps.className props) "");
              lazy_className :=
                if isFocused then
                  Some ("focused " +:+
                        (if isNodeSelection (selection st)
                         then "draggable" else ""))
                else None;
              lazy_src := ImageComponentProps.src props;
              lazy_altText := ImageComponentProps.altText props;
              lazy_title :=
                Some (JS.nullish (ImageComponentProps.title props) "");
              lazy_width := ImageComponentProps.width props;
              lazy_height := ImageComponentProps.height props;
              lazy_maxWidth := ImageComponentProps.maxWidth props;
              lazy_imgRounded := ImageComponentProps.imgRounded props |};
     view_caption :=
       if ImageComponentProps.showCaption props
       then Some (ImageComponentProps.caption props) else None;
     view_resizer :=
       if ImageComponentProps.resizable props
          && isNodeSelection (selection st) && isFocused
       then
         Some
           {| resizer_showCaption := ImageComponentProps.showCaption props;
              resizer_imgRounded := ImageComponentProps.imgRounded props;
              resizer_imgZoomable := ImageComponentProps.imgZoomable props;
              resizer_maxWidth := ImageComponentProps.maxWidth props;
              resizer_captionsEnabled :=
                negb (isLoadError st)
                && ImageComponentProps.captionsEnabled props |}
       else None |}.

(** The events that reach the component's state setters. *)
Inductive Event : Type :=
| ImgError                                  (* [onError] of the [img] *)
| ResizeStart                               (* [onResizeStart] *)
| ResizeEndTimer                            (* the timer of [onResizeEnd] *)
| UpdateListener (s : option (list NodeKey)) (* the update listener *)
| NodeSelected (b : bool)                   (* [useLexicalNodeSelection] *)
| Editable (b : bool).                      (* [useLexicalEditable] *)

Definition handle (st : State) (e : Event) : State :=
  match e with
  | ImgError =>
      {| isLoadError := true;
         isSelected := isSelected st; isResizing := isResizing st;
         selection := selection st; isEditable := isEditable st |}
  | ResizeStart =>
      {| isResizing := true;
         isSelected := isSelected st; selection := selection st;
         isLoadError := isLoadError st; isEditable := isEditable st |}
  | ResizeEndTimer =>
      {| isResizing := false;
         isSelected := isSelected st; selection := selection st;
         isLoadError := isLoadError st; isEditable := isEditable st |}
  | UpdateListener s =>
      {| selection := s;
         isSelected := isSelected st; isResizing := isResizing st;
         isLoadError := isLoadError st; isEditable := isEditable st |}
  | NodeSelected b =>
      {| isSelected := b;
         isResizing := isResizing st; selection := selection st;
         isLoadError := isLoadError st; isEditable := isEditable st |}
  | Editable b =>
      {| isEditable := b;
         isSelected := isSelected st; isResizing := isResizing st;
         selection := selection st; isLoadError := isLoadError st |}
  end.

Definition run (st : State) (events : list Event) : State :=
  fold_left handle events st.

Definition is_ImgError (e : Event) : bool :=
  match e with ImgError => true | _ => false end.

Section Callbacks.
Context `{Host}.
Variable getWritable : ImageNode -> M ImageNode.
Variable nodeKey : NodeKey.

(** The bodies of the [editor.update] calls of the component. The test
    [$isImageNode(node)] is the match on the node found. *)
Definition setShowCaption : M unit :=
  node <- getNodeByKey nodeKey ;;
  match node with
  | Some (IsImageNode n) => ImageNode.setShowCaption getWritable n true
  | Some (OtherNode _) | None => ret tt
  end.

Definition setImgRounded (rounded : bool) : M unit :=
  node <- getNodeByKey nodeKey ;;
  match node with
  | Some (IsImageNode n) => ImageNode.setImgRounded getWritable n rounded
  | Some (OtherNode _) | None => ret tt
  end.

Definition setImgZoomable (zoomable : bool) : M unit :=
  node <- getNodeByKey nodeKey ;;
  match node with
  | Some (IsImageNode n) => ImageNode.setImgZoomable getWritable n zoomable
  | Some (OtherNode _) | None => ret tt
  end.

Definition onResizeEnd (nextWidth nextHeight : Dim) : M unit :=
  node <- getNodeByKey nodeKey ;;
  match node with
  | Some (IsImageNode n) =>
      ImageNode.setWidthAndHeight getWritable n nextWidth nextHeight
  | Some (OtherNode _) | None => ret tt
  end.

End Callbacks.
End ImageComponent.

(** ** App.tsx and OnChangePlugin.tsx *)

(** How a call ends: with a value or with a thrown error. *)
Inductive Completion (E A : Type) : Type :=
| Normal (a : A)
| Throw (e : E).
Arguments Normal {E A} a.
Arguments Throw {E A} e.

Module OnChangePlugin.
Section WithHost.
Context `{Host}.

(** The function given to [editor.registerUpdateListener]. Lexical calls it
    after every update with the new editor state; [W] is what the two
    callbacks act on. *)
Definition updateListener {W : Type}
    (onHtmlChange onStateChange : option (string -> W -> W))
    (editorState : EditorState) (w : W) : W :=
  let w :=
    match onHtmlChange with
    | Some onHtmlChange =>
        let htmlString := generateHtmlFromNodes editorState in
        onHtmlChange htmlString w
    | None => w
    end in
  match onStateChange with
  | Some onStateChange =>
      let jsonString := JSON_stringify (EditorState_toJSON editorState) in
      onStateChange jsonString w
  | None => w
  end.

End WithHost.
End OnChangePlugin.

Module App.

(** [URLSearchParams]: the name/value pairs of the query string, in order. *)
Definition URLSearchParams : Type := list (string * string).

(** [params.get(name)]: the value of the first pair of that name. *)
Fixpoint get (params : URLSearchParams) (name : string) : option string :=
  match params with
  | [] => None
  | (n, v) :: rest => if String.eqb n name then Some v else get rest name
  end.

(** [window.localStorage] *)
Definition getItem (localStorage : gmap string string) (key : option string)
  : option string :=
  localStorage !! JS.DOMString key.

Definition setItem (localStorage : gmap string string) (key : option string)
    (value : string) : gmap string string :=
  <[JS.DOMString key := value]> localStorage.

Record InitialConfig : Type := {
  editorState : option string;
  namespace : string;
  showTreeView : bool;
}.

(** [console.error('error', error); throw error] *)
Definition onError {E : Type} (error : E) (console : list (string * E))
  : list (string * E) * Completion E unit :=
  ((console ++ [("error", error)])%list, Throw error).

Section WithPage.
Context `{Host}.
(** [new URLSearchParams(window.location.search)] *)
Variable params : URLSearchParams.

Definition storageKey : option string := get params "storageKey".

Definition htmlStorageKey : option string := get params "htmlStorageKey".

(** [typeof dataFromStorage == 'undefined']: [getItem] returns a string or
    null, whose [typeof] is ['string'] or ['object']. *)
Definition typeof_undefined (d : option string) : bool := false.

Definition dataFromStorage (localStorage : gmap string string)
  : option string :=
  let dataFromStorage := getItem localStorage storageKey in
  if negb (JS.string_truthy dataFromStorage)
     || typeof_undefined dataFromStorage
     || bool_decide (dataFromStorage = Some "undefined")
  then None
  else dataFromStorage.

Definition initialConfig (localStorage : gmap string string) : InitialConfig :=
  {| editorState := dataFromStorage localStorage;
     namespace := "Playground";
     showTreeView := false |}.

Definition onHtmlChange (html : string) (localStorage : gmap string string)
  : gmap string string :=
  if JS.string_truthy htmlStorageKey
  then setItem localStorage htmlStorageKey html
  else localStorage.

Definition onStateChange (jsonString : string)
    (localStorage : gmap string string) : gmap string string :=
  if JS.string_truthy storageKey
  then setItem localStorage storageKey jsonString
  else localStorage.

(** The listener that [<OnChangePlugin>] registers in [App]. *)
Definition updateListener (editorState : EditorState)
    (localStorage : gmap string string) : gmap string string :=
  OnChangePlugin.updateListener (Some onHtmlChange) (Some onStateChange)
    editorState localStorage.

End WithPage.
End App.

(** ** InsertLayoutDialog.tsx *)

Module InsertLayoutDialog.

Record Layout : Type := { label : string; value : string }.

Definition LAYOUTS : list Layout :=
  [ {| label := "2 colonnes (largeur égale)"; value := "1fr 1fr" |};
    {| label := "2 colonnes (25% - 75%)"; value := "1fr 3fr" |};
    {| label := "2 colonnes (largeur égale), 2 colonnes sur mobile";
       value := "1fr 1fr 0fr" |};
    {| label := "3 colonnes (largeur égale)"; value := "1fr 1fr 1fr" |};
    {| label := "3 colonnes (25% - 50% - 25%)"; value := "1fr 2fr 1fr" |};
    {| label := "4 colonnes (largeur égale)"; value := "1fr 1fr 1fr 1fr" |};
    {| label := "2 colonnes, image avec texte"; value := "2fr 3fr 0fr" |};
    {| label := "2 colonnes, image à droite avec texte";
       value := "3fr 2fr 0fr" |} ].

Inductive Command : Type := INSERT_LAYOUT_COMMAND.

(** The calls the dialog makes on what it is given: the active editor and
    the [onClose] callback. *)
Inductive Call : Type :=
| dispatchCommand (editor : LexicalEditor) (command : Command)
    (payload : string)
| onClose.

(** [useState(LAYOUTS[0].value)] *)
Definition initialLayout : string :=
  match LAYOUTS with
  | first :: _ => value first
  | [] => ""
  end.

Record DropDownItem : Type := {
  item_key : string;
  item_className : string;
  item_text : string;
  (** the click handler, a function of the [layout] cell *)
  item_onClick : string -> string;
}.

Record View : Type := {
  buttonClassName : string;
  buttonLabel : option string;
  items : list DropDownItem;
  (** the click handler of the Insert button: the calls it makes, in order *)
  insert_onClick : list Call;
}.

Definition render (activeEditor : LexicalEditor) (layout : string) : View :=
  let buttonLabel :=
    label <$> List.find (fun item => String.eqb (value item) layout) LAYOUTS in
  let onClick :=
    [dispatchCommand activeEditor INSERT_LAYOUT_COMMAND layout; onClose] in
  {| buttonClassName := "toolbar-item dialog-dropdown";
     buttonLabel := buttonLabel;
     items :=
       map (fun l =>
              {| item_key := value l;
                 item_className := "item";
                 item_text := label l;
                 item_onClick := fun _ => value l |})
         LAYOUTS;
     insert_onClick := onClick |}.

(** What the user does: click the [i]-th dropdown item, or the button. *)
Inductive Click : Type :=
| ClickItem (i : nat)
| ClickInsert.

(** One click on the rendered dialog: the new [layout] cell and the calls
    made. An index without an item is no click at all. *)
Definition click (activeEditor : LexicalEditor) (layout : string) (c : Click)
  : string * list Call :=
  let view := render activeEditor layout in
  match c with
  | ClickItem i =>
      match items view !! i with
      | Some item => (item_onClick item layout, [])
      | None => (layout, [])
      end
  | ClickInsert => (layout, insert_onClick view)
  end.

Fixpoint clicks (activeEditor : LexicalEditor) (layout : string)
    (cs : list Click) : string * list Call :=
  match cs with
  | [] => (layout, [])
  | c :: rest =>
      let '(layout', calls) := click activeEditor layout c in
      let '(layout'', calls') := clicks activeEditor layout' rest in
      (layout'', (calls ++ calls')%list)
  end.

End InsertLayoutDialog.

(** ** A small host, to run the definitions on concrete inputs

    An editor state is the list of its paragraphs; whole numbers print in
    decimal and other numbers as a fraction. *)

Definition sample_toString (n : JS.number) : string :=
  let r := Qred n in
  if Pos.eqb (Qden r) 1 then pretty (Qnum r)
  else pretty (Qnum r) +:+ "/" +:+ pretty (Z.pos (Qden r)).

Definition sample_host : Host :=
  {| Number_toString := sample_toString;
     EditorState := list string;
     SerializedEditorState := list string;
     emptyEditorState := [];
     EditorState_toJSON := fun s => s;
     parseEditorState := fun s => s;
     parsedNodeKeys := fun s => (2 * length s)%nat;
     EditorState_isEmpty := fun s => bool_decide (s = []);
     JSON_stringify := fun s => "[" +:+ String.concat "," s +:+ "]";
     generateHtmlFromNodes :=
       fun s => String.concat "" (map (fun p => "<p>" +:+ p +:+ "</p>") s) |}.

Definition sample_world : @World sample_host :=
  {| keyCounter := 7; editorCounter := 2;
     editors :=
       <[1%nat := @Build_EditorObj sample_host
                    "Playground/ImageNodeCaption" [] ["a caption"]]> ∅;
     nodeMap := ∅ |}.

Definition sample_node : ImageNode :=
  {| __key := "3"; __src := "https://example.org/cat.png";
     __altText := "a cat"; __width := Num 320%Q; __height := Inherit;
     __maxWidth := 500%Q; __showCaption := true; __imgRounded := false;
     __imgZoomable := true; __caption := 1%nat; __captionsEnabled := true;
     __title := None; __className := Some "wide" |}.

(** [getWritable] of a node that the running update has cloned already:
    the object in the node map, or the node itself. *)
Definition sample_getWritable (n : ImageNode) : @M sample_host ImageNode :=
  fun w =>
    match nodeMap w !! __key n with
    | Some (IsImageNode latest) => (latest, w)
    | Some (OtherNode _) | None => (n, w)
    end.

(** [written w1 w2 n]: the store [w2] is [w1] after the node object of key
    [__key n] has taken the field values of [n]; nothing else differs. *)
Definition written `{Host} (w1 w2 : World) (n : ImageNode) : Prop :=
  nodeMap w2 = <[__key n := IsImageNode n]> (nodeMap w1)
  /\ editors w2 = editors w1
  /\ keyCounter w2 = keyCounter w1
  /\ editorCounter w2 = editorCounter w1.

(** An image pasted from a web page, with no size of its own. *)
Definition sample_img : DOM.HTMLImageElement :=
  {| DOM.src := "https://example.org/cat.png";
     DOM.alt := "a cat";
     DOM.width := 0;
     DOM.height := 0;
     DOM.className := "wide";
     DOM.parentElement := Some {| DOM.tagName := "P" |};
     DOM.previousSibling := None;
     DOM.img_attributes := [("src", "https://example.org/cat.png")] |}.

(** A natural size of an image as [LazyImage] takes it: the known size,
    and 200 when the size is unknown or 0. *)
Definition known_or_200 (n : option N) : JS.number :=
  match n with
  | Some m => if (m =? 0)%N then 200%Q else N_number m
  | None => 200%Q
  end.

(** A tall, narrow SVG of 2 by 640 pixels. *)
Definition sample_dimensions : ImageComponent.Dimensions :=
  {| ImageComponent.dimensions_width := 2;
     ImageComponent.dimensions_height := 640 |}.

(** A page opened with both parameters, what it has stored, and an editor
    state of one paragraph. *)
Definition sample_params : App.URLSearchParams :=
  [("storageKey", "doc"); ("htmlStorageKey", "doc-html")].

Definition sample_storage : gmap string string :=
  <["doc" := "[Bonjour]"]> (<["theme" := "dark"]> ∅).

Definition sample_state : @EditorState sample_host := ["Hello"].

(** A node whose width is the number 0, written as a fraction. *)
Definition sample_node_zero : ImageNode :=
  {| __key := "4"; __src := "https://example.org/dot.png";
     __altText := ""; __width := Num (0 # 5); __height := Num (3 # 2);
     __maxWidth := 500%Q; __showCaption := false; __imgRounded := false;
     __imgZoomable := false; __caption := 1%nat; __captionsEnabled := false;
     __title := Some "dot"; __className := None |}.

(** An image with a size of its own. *)
Definition sample_img_sized : DOM.HTMLImageElement :=
  {| DOM.src := "https://example.org/cat.png";
     DOM.alt := "a cat";
     DOM.width := 640;
     DOM.height := 480;
     DOM.className := "";
     DOM.parentElement := Some {| DOM.tagName := "LI" |};
     DOM.previousSibling := None;
     DOM.img_attributes := [] |}.

(** ** App.tsx: the import map for pasted text *)

Module ImportMap.

(** The three properties of [element.style] that are read. *)
Record CSSStyle : Type := {
  fontSize : string;
  backgroundColor : string;
  color : string;
}.

(** [obj[key] = value] on an object kept as its list of entries. *)
Fixpoint obj_set {V : Type} (obj : list (string * V)) (key : string)
    (value : V) : list (string * V) :=
  match obj with
  | [] => [(key, value)]
  | (k, v) :: rest =>
      if String.eqb k key then (k, value) :: rest
      else (k, v) :: obj_set rest key value
  end.

Section WithTextNode.
(** [parseAllowedFontSize] (plugins/ToolbarPlugin/fontSize) and
    [parseAllowedColor] (ui/ColorPicker) are not among the sources. *)
Variable parseAllowedFontSize : string -> string.
Variable parseAllowedColor : string -> string.
(** The DOM elements, the Lexical nodes and what [output.node] may hold. *)
Variables HTMLElement LexicalNode NodeOutput : Type.
Variable style : HTMLElement -> CSSStyle.
(** [$isTextNode], [getStyle] and [setStyle] of Lexical's [TextNode]. *)
Variable isTextNode : LexicalNode -> bool.
Variable getStyle : LexicalNode -> string.
Variable setStyle : LexicalNode -> string -> LexicalNode.

Definition getExtraStyles (element : HTMLElement) : string :=
  let extraStyles := "" in
  let fontSize := parseAllowedFontSize (fontSize (style element)) in
  let backgroundColor :=
    parseAllowedColor (backgroundColor (style element)) in
  let color := parseAllowedColor (color (style element)) in
  let extraStyles :=
    if negb (String.eqb fontSize "") && negb (String.eqb fontSize "15px")
    then extraStyles +:+ ("font-size: " +:+ fontSize +:+ ";")
    else extraStyles in
  let extraStyles :=
    if negb (String.eqb backgroundColor "")
       && negb (String.eqb backgroundColor "rgb(255, 255, 255)")
    then extraStyles +:+ ("background-color: " +:+ backgroundColor +:+ ";")
    else extraStyles in
  let extraStyles :=
    if negb (String.eqb color "") && negb (String.eqb color "rgb(0, 0, 0)")
    then extraStyles +:+ ("color: " +:+ color +:+ ";")
    else extraStyles in
  extraStyles.

Record DOMConversionOutput : Type := {
  after : option (list LexicalNode -> list LexicalNode);
  forChild : option (LexicalNode -> option LexicalNode -> option LexicalNode);
  node : option NodeOutput;
}.

Record DOMConversion : Type := {
  conversion : HTMLElement -> option DOMConversionOutput;
  priority : option nat;
}.

(** The [forChild] that replaces the one of the output. *)
Definition forChild_with_styles
    (forChild : LexicalNode -> option LexicalNode -> option LexicalNode)
    (extraStyles : string) (child : LexicalNode) (parent : option LexicalNode)
  : option LexicalNode :=
  let textNode := forChild child parent in
  match textNode with
  | Some t =>
      if isTextNode t then Some (setStyle t (getStyle t +:+ extraStyles))
      else textNode
  | None => textNode
  end.

(** The [conversion] that replaces the one of the importer. *)
Definition conversion_with_styles (importer : DOMConversion)
    (element : HTMLElement) : option DOMConversionOutput :=
  let output := conversion importer element in
  match output with
  | None => output
  | Some out =>
      if is_undefined (forChild out)
         || negb (is_undefined (after out))
         || negb (is_undefined (node out))
      then output
      else
        let extraStyles := getExtraStyles element in
        if JS.string_truthy (Some extraStyles) then
          match forChild out with
          | Some forChild =>
              Some {| after := after out;
                      node := node out;
                      forChild :=
                        Some (forChild_with_styles forChild extraStyles) |}
          | None => output
          end
        else output
  end.

(** The function stored under each tag of the import map. *)
Definition importer_with_styles
    (fn : HTMLElement -> option DOMConversion) (importNode : HTMLElement)
  : option DOMConversion :=
  let importer := fn importNode in
  match importer with
  | None => None
  | Some importer =>
      Some {| priority := priority importer;
              conversion := conversion_with_styles importer |}
  end.

(** [buildImportMap], given [TextNode.importDOM()] as the list of its
    entries, or null. *)
Definition buildImportMap
    (TextNode_importDOM :
       option (list (string * (HTMLElement -> option DOMConversion))))
  : list (string * (HTMLElement -> option DOMConversion)) :=
  let importMap := [] in
  fold_left
    (fun importMap '(tag, fn) =>
       obj_set importMap tag (importer_with_styles fn))
    (JS.nullish TextNode_importDOM [])
    importMap.

End WithTextNode.

Arguments Build_DOMConversionOutput {LexicalNode NodeOutput}.
Arguments after {LexicalNode NodeOutput}.
Arguments forChild {LexicalNode NodeOutput}.
Arguments node {LexicalNode NodeOutput}.
Arguments Build_DOMConversion {HTMLElement LexicalNode NodeOutput}.
Arguments conversion {HTMLElement LexicalNode NodeOutput}.
Arguments priority {HTMLElement LexicalNode NodeOutput}.

End ImportMap.

(** ** nodes/ImageComponent.tsx: the image cache and the command handlers *)

Module ImageCache.

(** [useSuspenseImage]: [true] when the render is suspended, that is when a
    promise is thrown. *)
Definition useSuspenseImage (imageCache : gset string) (src : string)
  : bool :=
  negb (bool_decide (src ∈ imageCache)).

(** The two handlers of the image that the thrown promise loads: the new
    cache, and whether the promise is resolved. *)
Definition img_onload (imageCache : gset string) (src : string)
  : gset string * bool :=
  (imageCache ∪ {[src]}, true).

Definition img_onerror (imageCache : gset string) (src : string)
  : gset string * bool :=
  (imageCache ∪ {[src]}, false).

End ImageCache.

Module ImageHandlers.

(** The target of an event: an element, named by its identity, and its tag
    name. *)
Record EventTarget : Type := { elem : nat; tagName : string }.

Record MouseEvent : Type := { target : EventTarget; shiftKey : bool }.

(** What [$getSelection()] returns, with the keys of [getNodes()]. *)
Inductive Selection : Type :=
| RangeSelection (nodes : list NodeKey)
| NodeSelection (nodes : list NodeKey)
| OtherSelection.

Definition is_NodeSelection (s : option Selection) : bool :=
  match s with Some (NodeSelection _) => true | _ => false end.

Definition is_RangeSelection (s : option Selection) : bool :=
  match s with Some (RangeSelection _) => true | _ => false end.

Definition getNodes (s : option Selection) : list NodeKey :=
  match s with
  | Some (RangeSelection nodes) | Some (NodeSelection nodes) => nodes
  | Some OtherSelection | None => []
  end.

(** The calls a handler makes on the editor, the event and the page. *)
Inductive Call : Type :=
| setSelection_null                 (* [$setSelection(null)] *)
| preventDefault                    (* [event.preventDefault()] *)
| caption_focus                     (* [caption.focus()] *)
| button_focus                      (* [buttonElem.focus()] *)
| setSelected (b : bool)            (* of [useLexicalNodeSelection] *)
| clearSelection                    (* of [useLexicalNodeSelection] *)
| rootElement_focus                 (* [parentRootElement.focus()] *)
| dispatch_RIGHT_CLICK_IMAGE_COMMAND (event : MouseEvent).

(** [$onEnter], a function of what it reads: the selection, the button of
    the resizer, the focused element, and the props and state it closes
    over. *)
Definition onEnter (isSelected showCaption : bool)
    (latestSelection : option Selection) (buttonElem : option nat)
    (activeElement : option nat) : bool * list Call :=
  if isSelected
     && is_NodeSelection latestSelection
     && (length (getNodes latestSelection) =? 1)%nat
  then
    if showCaption then
      (true, [setSelection_null; preventDefault; caption_focus])
    else if negb (is_undefined buttonElem)
            && negb (bool_decide (buttonElem = activeElement))
    then (true, [preventDefault; button_focus])
    else (false, [])
  else (false, []).

(** [$onEscape] *)
Definition onEscape (caption : LexicalEditor)
    (activeEditorRef : option LexicalEditor) (buttonRef : option nat)
    (rootElement : option nat) (event_target : EventTarget)
  : bool * list Call :=
  if bool_decide (activeEditorRef = Some caption)
     || bool_decide (buttonRef = Some (elem event_target))
  then
    (true,
     [setSelection_null; setSelected true]
     ++ (if negb (is_undefined rootElement) then [rootElement_focus]
         else []))%list
  else (false, []).

(** [onClick] *)
Definition onClick (isResizing isSelected : bool) (imageRef : option nat)
    (payload : MouseEvent) : bool * list Call :=
  let event := payload in
  if isResizing then (true, [])
  else if bool_decide (Some (elem (target event)) = imageRef) then
    (true,
     if shiftKey event then [setSelected (negb isSelected)]
     else [clearSelection; setSelected true])
  else (false, []).

(** [onRightClick] *)
Definition onRightClick (latestSelection : option Selection)
    (event : MouseEvent) : list Call :=
  let domElement := target event in
  if String.eqb (tagName domElement) "IMG"
     && is_RangeSelection latestSelection
     && (length (getNodes latestSelection) =? 1)%nat
  then [dispatch_RIGHT_CLICK_IMAGE_COMMAND event]
  else [].

(** The handler registered for [DRAGSTART_COMMAND]. *)
Definition onDragStart (imageRef : option nat) (event_target : EventTarget)
  : bool * list Call :=
  if bool_decide (Some (elem event_target) = imageRef)
  then (true, [preventDefault])
  else (false, []).

(** The update listener of the component: what it puts in the [selection]
    cell. *)
Definition selectionListener (updatedSelection : option Selection)
  : ImageComponent.Event :=
  if is_NodeSelection updatedSelection
  then ImageComponent.UpdateListener (Some (getNodes updatedSelection))
  else ImageComponent.UpdateListener None.

End ImageHandlers.

(** To count the calls of [onClose] and the clicks on Insert. *)
Definition is_onClose (call : InsertLayoutDialog.Call) : bool :=
  match call with
  | InsertLayoutDialog.onClose => true
  | InsertLayoutDialog.dispatchCommand _ _ _ => false
  end.

Definition is_ClickInsert (c : InsertLayoutDialog.Click) : bool :=
  match c with
  | InsertLayoutDialog.ClickInsert => true
  | InsertLayoutDialog.ClickItem _ => false
  end.

(** A text node for the samples: its text and its style. *)
Definition sample_text_style (n : string * string) : string := snd n.

Definition sample_set_style (n : string * string) (s : string)
  : string * string := (fst n, s).

(** * Properties *)

(** ** ImageNode *)

Lemma string_or_empty (a : option string) :
  JS.string_or a "" = default "" a.
Proof. destruct a as [[|c r]|]; reflexivity. Qed.

(** C2: for every ImageNode, decorate() returns the props of an
    ImageComponent whose src, altText, width, height, maxWidth, showCaption,
    imgRounded, imgZoomable, caption, captionsEnabled, title and className
    equal the node's fields, and whose resizable is true. *)
Theorem decorate_mirrors_node (n : ImageNode) :
  let p := ImageNode.decorate n in
  ImageComponentProps.src p = __src n
  /\ ImageComponentProps.altText p = __altText n
  /\ ImageComponentProps.width p = __width n
  /\ ImageComponentProps.height p = __height n
  /\ ImageComponentProps.maxWidth p = __maxWidth n
  /\ ImageComponentProps.showCaption p = __showCaption n
  /\ ImageComponentProps.imgRounded p = __imgRounded n
  /\ ImageComponentProps.imgZoomable p = __imgZoomable n
  /\ ImageComponentProps.caption p = __caption n
  /\ ImageComponentProps.captionsEnabled p = __captionsEnabled n
  /\ ImageComponentProps.title p = __title n
  /\ ImageComponentProps.className p = __className n
  /\ ImageComponentProps.nodeKey p = __key n
  /\ ImageComponentProps.resizable p = true.
Proof. cbv zeta. unfold ImageNode.decorate, ImageNode.getKey. simpl. tauto. Qed.

Example decorate_sample :
  ImageNode.decorate sample_node
  = {| ImageComponentProps.src := "https://example.org/cat.png";
       ImageComponentProps.altText := "a cat";
       ImageComponentProps.nodeKey := "3";
       ImageComponentProps.width := Num 320%Q;
       ImageComponentProps.height := Inherit;
       ImageComponentProps.maxWidth := 500%Q;
       ImageComponentProps.resizable := true;
       ImageComponentProps.showCaption := true;
       ImageComponentProps.imgRounded := false;
       ImageComponentProps.imgZoomable := true;
       ImageComponentProps.caption := 1%nat;
       ImageComponentProps.captionsEnabled := true;
       ImageComponentProps.title := None;
       ImageComponentProps.className := Some "wide" |}.
Proof. reflexivity. Qed.

(** C7: exportDOM() returns an img element whose src, alt, width and height
    attributes are the node's __src, __altText, __width.toString() and
    __height.toString(), whose title and class attributes are __title and
    __className, or the empty string when unset, and whose data-rounded and
    data-zoomable attributes are '1' when the flag is true and '0'
    otherwise. The element has no other attribute. *)
Theorem exportDOM_attributes `{Host} (n : ImageNode) :
  let e := element (ImageNode.exportDOM n) in
  DOM.localName e = "img"
  /\ DOM.getAttribute e "src" = Some (__src n)
  /\ DOM.getAttribute e "alt" = Some (__altText n)
  /\ DOM.getAttribute e "width" = Some (Dim_toString (__width n))
  /\ DOM.getAttribute e "height" = Some (Dim_toString (__height n))
  /\ DOM.getAttribute e "title" = Some (default "" (__title n))
  /\ DOM.getAttribute e "class" = Some (default "" (__className n))
  /\ DOM.getAttribute e "data-rounded"
     = Some (if __imgRounded n then "1" else "0")
  /\ DOM.getAttribute e "data-zoomable"
     = Some (if __imgZoomable n then "1" else "0")
  /\ map fst (DOM.attributes e)
     = ["src"; "alt"; "width"; "height"; "title"; "class";
        "data-rounded"; "data-zoomable"].
Proof.
  cbv zeta. unfold ImageNode.exportDOM.
  rewrite !string_or_empty.
  repeat split; reflexivity.
Qed.

Example exportDOM_sample :
  DOM.attributes (element (ImageNode.exportDOM (H := sample_host) sample_node))
  = [("src", "https://example.org/cat.png"); ("alt", "a cat");
     ("width", "320"); ("height", "inherit"); ("title", "");
     ("class", "wide"); ("data-rounded", "0"); ("data-zoomable", "1")].
Proof. vm_compute. reflexivity. Qed.

Section Mutators.
Context `{Host}.
Variable getWritable : ImageNode -> M ImageNode.

(** C5: each mutator changes only its named fields on the writable node and
    leaves every other field unchanged. With [writable] the node that
    getWritable() hands out, setWidthAndHeight(w, h) leaves it with __width
    w and __height h, setShowCaption with the given __showCaption,
    setImgRounded with the given __imgRounded and setImgZoomable with the
    given __imgZoomable; all other fields, among them __src, __altText,
    __maxWidth, __caption, __captionsEnabled, __title and __className, keep
    the values they have on [writable], and no other object is written. *)
Theorem mutators_change_only_named_fields (this : ImageNode) (w0 : World) :
  let writable := fst (getWritable this w0) in
  let w1 := snd (getWritable this w0) in
  (forall width height,
     written w1
       (snd (ImageNode.setWidthAndHeight getWritable this width height w0))
       {| __width := width;
          __height := height;
          __key := __key writable; __src := __src writable;
          __altText := __altText writable;
          __maxWidth := __maxWidth writable;
          __showCaption := __showCaption writable;
          __imgRounded := __imgRounded writable;
          __imgZoomable := __imgZoomable writable;
          __caption := __caption writable;
          __captionsEnabled := __captionsEnabled writable;
          __title := __title writable;
          __className := __className writable |})
  /\ (forall showCaption,
        written w1
          (snd (ImageNode.setShowCaption getWritable this showCaption w0))
          {| __showCaption := showCaption;
             __key := __key writable; __src := __src writable;
             __altText := __altText writable;
             __width := __width writable; __height := __height writable;
             __maxWidth := __maxWidth writable;
             __imgRounded := __imgRounded writable;
             __imgZoomable := __imgZoomable writable;
             __caption := __caption writable;
             __captionsEnabled := __captionsEnabled writable;
             __title := __title writable;
             __className := __className writable |})
  /\ (forall imgRounded,
        written w1
          (snd (ImageNode.setImgRounded getWritable this imgRounded w0))
          {| __imgRounded := imgRounded;
             __key := __key writable; __src := __src writable;
             __altText := __altText writable;
             __width := __width writable; __height := __height writable;
             __maxWidth := __maxWidth writable;
             __showCaption := __showCaption writable;
             __imgZoomable := __imgZoomable writable;
             __caption := __caption writable;
             __captionsEnabled := __captionsEnabled writable;
             __title := __title writable;
             __className := __className writable |})
  /\ (forall imgZoomable,
        written w1
          (snd (ImageNode.setImgZoomable getWritable this imgZoomable w0))
          {| __imgZoomable := imgZoomable;
             __key := __key writable; __src := __src writable;
             __altText := __altText writable;
             __width := __width writable; __height := __height writable;
             __maxWidth := __maxWidth writable;
             __showCaption := __showCaption writable;
             __imgRounded := __imgRounded writable;
             __caption := __caption writable;
             __captionsEnabled := __captionsEnabled writable;
             __title := __title writable;
             __className := __className writable |}).
Proof.
  cbv zeta.
  unfold ImageNode.setWidthAndHeight, ImageNode.setShowCaption,
    ImageNode.setImgRounded, ImageNode.setImgZoomable, bind, written.
  destruct (getWritable this w0) as [writable w1]; simpl.
  repeat split; try reflexivity.
  apply insert_insert_eq.
Qed.

(** [onResizeEnd] of [ImageComponent] hands the new size to the mutator of
    the image node found under the key, and does nothing when there is no
    image node under it. *)
Lemma onResizeEnd_spec (nodeKey : NodeKey) (nextWidth nextHeight : Dim)
    (w0 : World) :
  ImageComponent.onResizeEnd getWritable nodeKey nextWidth nextHeight w0
  = match nodeMap w0 !! nodeKey with
    | Some (IsImageNode n) =>
        ImageNode.setWidthAndHeight getWritable n nextWidth nextHeight w0
    | Some (OtherNode _) | None => (tt, w0)
    end.
Proof.
  unfold ImageComponent.onResizeEnd, getNodeByKey, bind. simpl.
  destruct (nodeMap w0 !! nodeKey) as [[n|t]|]; reflexivity.
Qed.

End Mutators.

Example setWidthAndHeight_sample :
  let w0 : @World sample_host :=
    {| keyCounter := 7; editorCounter := 2; editors := ∅;
       nodeMap := <["3" := IsImageNode sample_node]> ∅ |} in
  nodeMap
    (snd (ImageNode.setWidthAndHeight sample_getWritable sample_node
            (Num 100%Q) (Num 50%Q) w0)) !! "3"
  = Some (IsImageNode
            {| __key := "3"; __src := "https://example.org/cat.png";
               __altText := "a cat"; __width := Num 100%Q;
               __height := Num 50%Q;
               __maxWidth := 500%Q; __showCaption := true;
               __imgRounded := false; __imgZoomable := true;
               __caption := 1%nat; __captionsEnabled := true;
               __title := None; __className := Some "wide" |}).
Proof. vm_compute. reflexivity. Qed.

Lemma number_truthy_false (q : JS.number) :
  JS.number_truthy q = false <-> (q == 0)%Q.
Proof.
  unfold JS.number_truthy. rewrite negb_false_iff. apply Qeq_bool_iff.
Qed.

Lemma number_truthy_true (q : JS.number) :
  JS.number_truthy q = true <-> ~ (q == 0)%Q.
Proof.
  rewrite <- number_truthy_false.
  destruct (JS.number_truthy q); split; congruence.
Qed.

Lemma dim_or_inherit_Num_truthy (q : JS.number) :
  ~ (q == 0)%Q -> dim_or_inherit (Some (Num q)) = Num q.
Proof.
  intros Hq. apply number_truthy_true in Hq. simpl. rewrite Hq. reflexivity.
Qed.

Lemma dim_or_inherit_Num_zero (q : JS.number) :
  (q == 0)%Q -> dim_or_inherit (Some (Num q)) = Inherit.
Proof.
  intros Hq. apply number_truthy_false in Hq. simpl. rewrite Hq. reflexivity.
Qed.

Lemma bool_or_false_Some (b : bool) : bool_or_false (Some b) = b.
Proof. destruct b; reflexivity. Qed.

Lemma prefix_spec (p s : string) :
  String.prefix p s = true <-> exists rest, s = p +:+ rest.
Proof.
  revert s. induction p as [|c p IH]; intros s.
  - split; [intros _; exists s | intros _; destruct s]; reflexivity.
  - destruct s as [|d s]; simpl.
    + split; [discriminate | intros [rest Hr]; discriminate].
    + destruct (Ascii.ascii_dec c d) as [->|Hne].
      * rewrite IH. split; intros [rest Hr]; exists rest.
        -- rewrite Hr. reflexivity.
        -- change (String d s = String d (p +:+ rest)) in Hr. congruence.
      * split; [discriminate | intros [rest Hr]].
        change (String d s = String c (p +:+ rest)) in Hr. congruence.
Qed.

Section Serialization.
Context `{Host}.

(** C8: importJSON(exportJSON(n)) is a node equal to n on src, altText,
    maxWidth, showCaption, imgRounded and imgZoomable, and on title and
    className up to undefined becoming the empty string. A width or height
    that is a nonzero number is preserved; 'inherit' and the number 0 both
    come back as 'inherit', since exportJSON writes 'inherit' as 0 and the
    constructor maps 0 to 'inherit'. *)
Theorem importJSON_exportJSON (n : ImageNode) (w0 : World) :
  let s := fst (ImageNode.exportJSON n w0) in
  let w1 := snd (ImageNode.exportJSON n w0) in
  let n' := fst (ImageNode.importJSON s w1) in
  __src n' = __src n
  /\ __altText n' = __altText n
  /\ __maxWidth n' = __maxWidth n
  /\ __showCaption n' = __showCaption n
  /\ __imgRounded n' = __imgRounded n
  /\ __imgZoomable n' = __imgZoomable n
  /\ __title n' = Some (default "" (__title n))
  /\ __className n' = Some (default "" (__className n))
  /\ (forall q, __width n = Num q -> ~ (q == 0)%Q -> __width n' = Num q)
  /\ (forall q, __height n = Num q -> ~ (q == 0)%Q -> __height n' = Num q)
  /\ (__width n = Inherit \/ (exists q, __width n = Num q /\ (q == 0)%Q) ->
      __width n' = Inherit)
  /\ (__height n = Inherit \/ (exists q, __height n = Num q /\ (q == 0)%Q) ->
      __height n' = Inherit)
  /\ (__width n = Inherit -> SerializedImageNode.width s = Some 0%Q)
  /\ (__height n = Inherit -> SerializedImageNode.height s = Some 0%Q).
Proof.
  cbv zeta.
  unfold ImageNode.exportJSON, ImageNode.caption_toJSON, getEditorState, bind,
    ret. cbn [fst snd].
  unfold ImageNode.importJSON, ImageNode.createImageNode,
    ImageNode.constructor, ImageNode.updateFromJSON,
    ImageNode.super_updateFromJSON, applyNodeReplacement, createEditor,
    setNodeKey, bind, ret.
  cbn -[dim_or_inherit bool_or_false JS.string_or].
  match goal with
  | |- context [if ?c then _ else _] => destruct c
  end; cbn -[dim_or_inherit bool_or_false JS.string_or];
    rewrite ?bool_or_false_Some, ?string_or_empty.
  all: repeat split; try reflexivity.
  all: try (intros q Hq Hne; rewrite Hq; apply dim_or_inherit_Num_truthy;
            assumption).
  all: try (intros [Hi | [q [Hq Hz]]];
            [rewrite Hi; reflexivity
            | rewrite Hq; apply dim_or_inherit_Num_zero; assumption]).
  all: try (intros Hi; rewrite Hi; reflexivity).
Qed.

End Serialization.

Lemma importJSON_exportJSON_witness :
  let s := fst (ImageNode.exportJSON (H := sample_host) sample_node
                  sample_world) in
  let s0 := fst (ImageNode.exportJSON (H := sample_host) sample_node_zero
                   sample_world) in
  __width (fst (ImageNode.importJSON s sample_world)) = Num 320%Q
  /\ __height (fst (ImageNode.importJSON s sample_world)) = Inherit
  /\ __width (fst (ImageNode.importJSON s0 sample_world)) = Inherit
  /\ __height (fst (ImageNode.importJSON s0 sample_world)) = Num (3 # 2)
  /\ SerializedImageNode.height s = Some 0%Q.
Proof.
  cbv zeta.
  destruct (importJSON_exportJSON (H := sample_host) sample_node sample_world)
    as (_ & _ & _ & _ & _ & _ & _ & _ & Hw & _ & _ & Hh & _ & Hs).
  destruct (importJSON_exportJSON (H := sample_host) sample_node_zero
              sample_world)
    as (_ & _ & _ & _ & _ & _ & _ & _ & _ & Hh0 & Hw0 & _).
  split; [| split; [| split; [| split]]].
  - apply (Hw 320%Q); [reflexivity | discriminate].
  - apply Hh. left. reflexivity.
  - apply Hw0. right. exists (0 # 5). split; reflexivity.
  - apply (Hh0 (3 # 2)); [reflexivity | discriminate].
  - apply Hs. reflexivity.
Defined.

Example importJSON_exportJSON_sample :
  fst (ImageNode.importJSON
         (fst (ImageNode.exportJSON (H := sample_host) sample_node
                 sample_world))
         sample_world)
  = {| __key := "7"; __src := "https://example.org/cat.png";
       __altText := "a cat"; __width := Num 320%Q; __height := Inherit;
       __maxWidth := 500%Q; __showCaption := true; __imgRounded := false;
       __imgZoomable := true; __caption := 2%nat; __captionsEnabled := true;
       __title := Some ""; __className := Some "wide" |}.
Proof. vm_compute. reflexivity. Qed.

Lemma isGoogleDocCheckboxImg_spec (img : DOM.HTMLImageElement) :
  ImageNode.isGoogleDocCheckboxImg img = true
  <-> (exists parent,
         DOM.parentElement img = Some parent /\ DOM.tagName parent = "LI")
      /\ DOM.previousSibling img = None
      /\ DOM.img_getAttribute img "aria-roledescription" = Some "checkbox".
Proof.
  unfold ImageNode.isGoogleDocCheckboxImg.
  destruct (DOM.parentElement img) as [parent|].
  - rewrite !andb_true_iff, String.eqb_eq, bool_decide_eq_true.
    destruct (DOM.previousSibling img); simpl; split.
    + intros [[_ ?] _]. discriminate.
    + intros (_ & ? & _). discriminate.
    + intros [[? _] ?]. eauto.
    + intros ([p [[= <-] ?]] & _ & ?). auto.
  - split; [discriminate | intros ([p [? _]] & _); discriminate].
Qed.

Section Conversion.
Context `{Host}.

(** C9, as the code has it: $convertImageElement returns null exactly when
    the src of the img element starts with 'file:///' or the element is a
    Google-Docs checkbox image (its parent element is an LI, it has no
    previous sibling and its aria-roledescription attribute is 'checkbox').
    For every other img element it returns a conversion output whose node
    is a new ImageNode with the element's alt, src and className, and with
    the element's width and height where these are not 0; a width or height
    of 0 becomes 'inherit'. *)
Theorem convertImageElement_spec (img : DOM.HTMLImageElement) (w0 : World) :
  let r := fst (ImageNode.convertImageElement img w0) in
  (r = None
   <-> (exists rest, DOM.src img = "file:///" +:+ rest)
       \/ ((exists parent,
              DOM.parentElement img = Some parent
              /\ DOM.tagName parent = "LI")
           /\ DOM.previousSibling img = None
           /\ DOM.img_getAttribute img "aria-roledescription"
              = Some "checkbox"))
  /\ (r <> None ->
      exists n,
        r = Some {| node := n |}
        /\ __altText n = DOM.alt img
        /\ __src n = DOM.src img
        /\ __className n = Some (DOM.className img)
        /\ (DOM.width img <> 0%N -> __width n = Num (N_number (DOM.width img)))
        /\ (DOM.width img = 0%N -> __width n = Inherit)
        /\ (DOM.height img <> 0%N ->
            __height n = Num (N_number (DOM.height img)))
        /\ (DOM.height img = 0%N -> __height n = Inherit)
        /\ __key n = pretty (keyCounter w0)
        /\ __caption n = editorCounter w0).
Proof.
  cbv zeta. unfold ImageNode.convertImageElement.
  rewrite <- prefix_spec, <- isGoogleDocCheckboxImg_spec.
  fold (JS.startsWith (DOM.src img) "file:///").
  destruct (JS.startsWith (DOM.src img) "file:///") eqn:Hs;
    destruct (ImageNode.isGoogleDocCheckboxImg img) eqn:Hg; simpl.
  1-3: split; [split; auto | intros Hr; exfalso; apply Hr; reflexivity].
  split.
  - split; [discriminate | intros [?|?]; discriminate].
  - intros _. eexists. split; [reflexivity |]. simpl.
    assert (Hdim : forall m : N,
               (m <> 0%N -> dim_or_inherit (Some (Num (N_number m)))
                            = Num (N_number m))
               /\ (m = 0%N -> dim_or_inherit (Some (Num (N_number m)))
                              = Inherit)).
    { intros m. split.
      - intros Hm. apply dim_or_inherit_Num_truthy.
        unfold N_number, Qeq. simpl. lia.
      - intros ->. reflexivity. }
    destruct (Hdim (DOM.width img)), (Hdim (DOM.height img)).
    repeat split; auto.
Qed.

End Conversion.

Lemma convertImageElement_spec_witness :
  (exists n,
     fst (ImageNode.convertImageElement (H := sample_host) sample_img
            sample_world) = Some {| node := n |}
     /\ __width n = Inherit /\ __height n = Inherit)
  /\ (exists n,
        fst (ImageNode.convertImageElement (H := sample_host) sample_img_sized
               sample_world) = Some {| node := n |}
        /\ __width n = Num 640%Q /\ __height n = Num 480%Q).
Proof.
  split.
  - destruct (convertImageElement_spec (H := sample_host) sample_img
                sample_world) as [_ Hsome].
    destruct Hsome as (n & Hn & _ & _ & _ & _ & Hw & _ & Hh & _).
    + vm_compute. discriminate.
    + exists n. repeat split; [exact Hn | apply Hw | apply Hh]; reflexivity.
  - destruct (convertImageElement_spec (H := sample_host) sample_img_sized
                sample_world) as [_ Hsome].
    destruct Hsome as (n & Hn & _ & _ & _ & Hw & _ & Hh & _).
    + vm_compute. discriminate.
    + exists n. repeat split;
        [exact Hn | apply Hw; discriminate | apply Hh; discriminate].
Defined.

(** C9, as stated, fails on an img element whose width is 0: the node does
    not carry that width, its __width is 'inherit'. *)
Lemma convertImageElement_zero_width_not_carried :
  exists n,
    fst (ImageNode.convertImageElement (H := sample_host) sample_img
           sample_world) = Some {| node := n |}
    /\ __width n <> Num (N_number (DOM.width sample_img))
    /\ __height n <> Num (N_number (DOM.height sample_img)).
Proof.
  eexists. split; [vm_compute; reflexivity |].
  split; vm_compute; discriminate.
Qed.

(** ** LazyImage *)

Lemma Math_round_le (x : JS.number) : (JS.Math_round x <= x + (1 # 2))%Q.
Proof. unfold JS.Math_round. apply Qfloor_le. Qed.



Lemma gt_true (a b : JS.number) : ImageComponent.gt a b = true <-> (b < a)%Q.
Proof.
  unfold ImageComponent.gt. rewrite negb_true_iff.
  rewrite <- not_true_iff_false, Qle_bool_iff. split.
  - apply Qnot_le_lt.
  - apply Qlt_not_le.
Qed.

Lemma gt_false (a b : JS.number) : ImageComponent.gt a b = false <-> (a <= b)%Q.
Proof.
  unfold ImageComponent.gt. rewrite negb_false_iff. apply Qle_bool_iff.
Qed.

Lemma number_or_known (n : option N) :
  ImageComponent.number_or (N_number <$> n) 200%Q = known_or_200 n.
Proof.
  destruct n as [m|]; [|reflexivity]. simpl.
  destruct (N.eqb_spec m 0) as [->|Hm]; [reflexivity|].
  assert (Ht : JS.number_truthy (N_number m) = true).
  { apply number_truthy_true. unfold N_number, Qeq. simpl. lia. }
  rewrite Ht. reflexivity.
Qed.

Lemma known_or_200_whole (n : option N) :
  exists z : Z, (1 <= z)%Z /\ known_or_200 n = inject_Z z.
Proof.
  destruct n as [m|]; simpl.
  - destruct (N.eqb_spec m 0) as [->|Hm].
    + exists 200%Z. split; [lia | reflexivity].
    + exists (Z.of_N m). split; [lia | reflexivity].
  - exists 200%Z. split; [lia | reflexivity].
Qed.

Lemma pow2_pos (e : Z) : (0 < JS.pow2 e)%Q.
Proof. unfold JS.pow2. apply Qpower_0_lt. reflexivity. Qed.

Lemma pow2_plus (a b : Z) : (JS.pow2 (a + b) == JS.pow2 a * JS.pow2 b)%Q.
Proof. unfold JS.pow2. apply Qpower_plus. discriminate. Qed.

Lemma pow2_le (a b : Z) : (a <= b)%Z -> (JS.pow2 a <= JS.pow2 b)%Q.
Proof.
  intros Hab. unfold JS.pow2. apply Qpower_le_compat_l; [exact Hab |].
  discriminate.
Qed.

Lemma pow2_whole (a : Z) :
  (0 <= a)%Z -> (JS.pow2 a == inject_Z (2 ^ a))%Q.
Proof.
  intros Ha. unfold JS.pow2. rewrite Zpower_Qpower by exact Ha. reflexivity.
Qed.

Lemma round_half_even_le (t : Q) (z : Z) :
  (t <= inject_Z z)%Q -> (JS.round_half_even t <= z)%Z.
Proof.
  intros Ht. unfold JS.round_half_even.
  pose proof (Qfloor_le t) as Hf.
  assert (Hfz : (Qfloor t <= z)%Z).
  { rewrite Zle_Qle. lra. }
  assert (Hup : (1 # 2 <= t - inject_Z (Qfloor t))%Q -> (Qfloor t + 1 <= z)%Z).
  { intros Hhalf.
    assert (Hlt : (inject_Z (Qfloor t) < inject_Z z)%Q) by lra.
    rewrite <- Zlt_Qlt in Hlt. lia. }
  destruct (Qcompare_spec (t - inject_Z (Qfloor t)) (1 # 2)) as [He | Hl | Hg].
  - destruct (Z.even (Qfloor t)); [exact Hfz |]. apply Hup. lra.
  - exact Hfz.
  - apply Hup. lra.
Qed.

Lemma round_half_even_ge (t : Q) (z : Z) :
  (inject_Z z <= t)%Q -> (z <= JS.round_half_even t)%Z.
Proof.
  intros Ht. unfold JS.round_half_even.
  pose proof (Qlt_floor t) as Hf.
  assert (Hzf : (z <= Qfloor t)%Z).
  { assert (Hlt : (inject_Z z < inject_Z (Qfloor t + 1))%Q) by lra.
    rewrite <- Zlt_Qlt in Hlt. lia. }
  destruct (Qcompare_spec (t - inject_Z (Qfloor t)) (1 # 2));
    [destruct (Z.even (Qfloor t)) | |]; lia.
Qed.

Lemma Qnum_pos (x : Q) : (0 < x)%Q <-> exists p, Qnum x = Zpos p.
Proof.
  destruct x as [[|p|p] d]; unfold Qlt; simpl; split;
    try (intros [q [=]]); try lia; eauto.
Qed.

Lemma to_double_pos_nonneg (x : Q) :
  (0 <= x)%Q -> (0 <= JS.to_double_pos x)%Q.
Proof.
  intros Hx. unfold JS.to_double_pos.
  pose proof (pow2_pos (JS.ulp_exponent x)) as Hp.
  assert (Ht : (inject_Z 0 <= x / JS.pow2 (JS.ulp_exponent x))%Q).
  { change (inject_Z 0) with 0%Q. apply Qle_shift_div_l; lra. }
  apply round_half_even_ge in Ht. rewrite Zle_Qle in Ht.
  change (inject_Z 0) with 0%Q in Ht. nra.
Qed.

Lemma to_double_nonneg (x : Q) : (0 <= x)%Q -> (0 <= JS.to_double x)%Q.
Proof.
  intros Hx. unfold JS.to_double.
  destruct (Qnum x) as [|p|p] eqn:Hn.
  - lra.
  - apply to_double_pos_nonneg, Hx.
  - exfalso. destruct x as [n d]. simpl in Hn. subst n.
    unfold Qle in Hx. simpl in Hx. lia.
Qed.

Lemma to_double_nonpos (x : Q) : (x <= 0)%Q -> (JS.to_double x <= 0)%Q.
Proof.
  intros Hx. unfold JS.to_double.
  destruct (Qnum x) as [|p|p] eqn:Hn.
  - lra.
  - exfalso. destruct x as [n d]. simpl in Hn. subst n.
    unfold Qle in Hx. simpl in Hx. lia.
  - assert (H0 : (0 <= - x)%Q) by lra.
    apply to_double_pos_nonneg in H0. lra.
Qed.

(** Rounding never crosses a number of the grid it rounds to. *)
Lemma to_double_le_grid (x y : Q) (z : Z) :
  (0 < x)%Q -> (x <= y)%Q ->
  (y == inject_Z z * JS.pow2 (JS.ulp_exponent x))%Q ->
  (JS.to_double x <= y)%Q.
Proof.
  intros Hx Hxy Hy. unfold JS.to_double.
  apply Qnum_pos in Hx as Hn. destruct Hn as [p Hn]. rewrite Hn.
  unfold JS.to_double_pos.
  pose proof (pow2_pos (JS.ulp_exponent x)) as Hp.
  set (k := JS.ulp_exponent x) in *.
  assert (Ht : (x / JS.pow2 k <= inject_Z z)%Q).
  { apply Qle_shift_div_r; [exact Hp |]. rewrite <- Hy. exact Hxy. }
  apply round_half_even_le in Ht. rewrite Zle_Qle in Ht.
  rewrite Hy. nra.
Qed.

Lemma log2_floor_lower (x : Q) :
  (0 < x)%Q -> (JS.pow2 (JS.log2_floor x) <= x)%Q.
Proof.
  intros Hx. unfold JS.log2_floor.
  set (e := (Z.log2 (Qnum x) - Z.log2 (Z.pos (Qden x)))%Z).
  destruct (Qle_bool (JS.pow2 e) x) eqn:Hb.
  - apply Qle_bool_iff, Hb.
  - destruct x as [n d]. apply Qnum_pos in Hx as [p Hp]. simpl in Hp. subst n.
    subst e. cbn [Qnum Qden].
    set (a := Z.log2 (Z.pos p)). set (b := Z.log2 (Z.pos d)).
    pose proof (Z.log2_spec (Z.pos p) ltac:(lia)) as [Ha _].
    pose proof (Z.log2_spec (Z.pos d) ltac:(lia)) as [_ Hd].
    fold a in Ha. fold b in Hd.
    assert (Ha0 : (0 <= a)%Z) by apply Z.log2_nonneg.
    assert (Hb0 : (0 <= b)%Z) by apply Z.log2_nonneg.
    (* 2^(a-b-1) * d <= p *)
    assert (Hq : (JS.pow2 (a - b - 1) * JS.pow2 (Z.succ b) == JS.pow2 a)%Q).
    { rewrite <- pow2_plus. replace (a - b - 1 + Z.succ b)%Z with a by lia.
      reflexivity. }
    rewrite (pow2_whole (Z.succ b)), (pow2_whole a) in Hq by lia.
    pose proof (pow2_pos (a - b - 1)) as Hpos.
    assert (Hdq : (inject_Z (Z.pos d) < inject_Z (2 ^ Z.succ b))%Q)
      by (rewrite <- Zlt_Qlt; exact Hd).
    assert (Hpq : (inject_Z (2 ^ a) <= inject_Z (Z.pos p))%Q)
      by (rewrite <- Zle_Qle; exact Ha).
    assert (Hgoal : (JS.pow2 (a - b - 1) * inject_Z (Z.pos d)
                     <= inject_Z (Z.pos p))%Q) by nra.
    assert (Heq : (Z.pos p # d == inject_Z (Z.pos p) / inject_Z (Z.pos d))%Q).
    { rewrite Qmake_Qdiv. reflexivity. }
    rewrite Heq. apply Qle_shift_div_l.
    + change 0%Q with (inject_Z 0). rewrite <- Zlt_Qlt. lia.
    + exact Hgoal.
Qed.

Lemma ulp_exponent_nonpos (x : Q) :
  (0 < x)%Q -> (x < JS.pow2 53)%Q -> (JS.ulp_exponent x <= 0)%Z.
Proof.
  intros Hx Hlt. unfold JS.ulp_exponent.
  destruct (Z.le_gt_cases (JS.log2_floor x) 52) as [Hle | Hgt]; [lia |].
  exfalso. pose proof (log2_floor_lower x Hx) as Hlow.
  pose proof (pow2_le 53 (JS.log2_floor x) ltac:(lia)) as Hmono. lra.
Qed.

Lemma whole_on_grid (a k : Z) :
  (k <= 0)%Z -> (inject_Z a == inject_Z (a * 2 ^ (- k)) * JS.pow2 k)%Q.
Proof.
  intros Hk. rewrite inject_Z_mult, <- pow2_whole by lia.
  rewrite <- Qmult_assoc, <- pow2_plus.
  replace (- k + k)%Z with 0%Z by lia. change (JS.pow2 0) with 1%Q. ring.
Qed.

(** A product or quotient that is at most a whole number below 2^53 is not
    rounded above it. *)
Lemma to_double_le_whole (x : Q) (a : Z) :
  (0 <= a < 2 ^ 53)%Z -> (x <= inject_Z a)%Q ->
  (JS.to_double x <= inject_Z a)%Q.
Proof.
  intros [Ha0 Ha] Hxa.
  destruct (Qlt_le_dec 0 x) as [Hx | Hx].
  - apply (to_double_le_grid x _ (a * 2 ^ (- JS.ulp_exponent x)) Hx Hxa).
    apply whole_on_grid, ulp_exponent_nonpos; [exact Hx |].
    rewrite pow2_whole by lia.
    eapply Qle_lt_trans; [exact Hxa |]. rewrite <- Zlt_Qlt. exact Ha.
  - apply to_double_nonpos in Hx.
    assert (H0 : (0 <= inject_Z a)%Q)
      by (change 0%Q with (inject_Z 0); rewrite <- Zle_Qle; exact Ha0).
    lra.
Qed.



Lemma mul_nonneg (x s : JS.number) :
  (0 <= x)%Q -> (0 <= s)%Q -> (0 <= JS.mul x s)%Q.
Proof. intros Hx Hs. unfold JS.mul. apply to_double_nonneg. nra. Qed.



Lemma calculateDimensions_svg_cases (src : string) (width height : Dim)
    (maxWidth : JS.number) (dimensions : option ImageComponent.Dimensions) :
  let naturalWidth :=
    known_or_200 (ImageComponent.dimensions_width <$> dimensions) in
  let naturalHeight :=
    known_or_200 (ImageComponent.dimensions_height <$> dimensions) in
  let h1 :=
    if ImageComponent.gt naturalWidth maxWidth
    then JS.Math_round (JS.mul naturalHeight (JS.div maxWidth naturalWidth))
    else naturalHeight in
  let w1 :=
    if ImageComponent.gt naturalWidth maxWidth then maxWidth
    else naturalWidth in
  ImageComponent.isSVG src = true ->
  ImageComponent.calculateDimensions src width height maxWidth dimensions
  = {| ImageComponent.style_height :=
         Num (if ImageComponent.gt h1 500%Q then 500%Q else h1);
       ImageComponent.style_maxWidth := maxWidth;
       ImageComponent.style_width :=
         Num (if ImageComponent.gt h1 500%Q
              then JS.Math_round (JS.mul w1 (JS.div 500%Q h1)) else w1) |}.
Proof.
  intros nw nh h1 w1 Hsvg. subst nw nh h1 w1.
  unfold ImageComponent.calculateDimensions. rewrite Hsvg. cbn [negb].
  rewrite <- !number_or_known, <- !option_fmap_compose.
  destruct (ImageComponent.gt _ maxWidth); cbv zeta beta iota.
  all: destruct (ImageComponent.gt _ 500%Q); reflexivity.
Qed.




(** The factor 500 / 608 is rounded down to a double before it is used, so
    that a 76 by 608 SVG gets the width round(62.49999999999999) = 62, not
    the round(62.5) = 63 of exact arithmetic. *)
Example calculateDimensions_double_rounding :
  ImageComponent.calculateDimensions "tall.svg" Inherit Inherit 500%Q
    (Some {| ImageComponent.dimensions_width := 76;
             ImageComponent.dimensions_height := 608 |})
  = {| ImageComponent.style_height := Num 500%Q;
       ImageComponent.style_maxWidth := 500%Q;
       ImageComponent.style_width := Num 62%Q |}
  /\ JS.Math_round (76 * (500 / 608))%Q = 63%Q.
Proof. split; vm_compute; reflexivity. Qed.

Example calculateDimensions_double_rounding_wide :
  ImageComponent.calculateDimensions "wide.svg" Inherit Inherit 500%Q
    (Some {| ImageComponent.dimensions_width := 608;
             ImageComponent.dimensions_height := 76 |})
  = {| ImageComponent.style_height := Num 62%Q;
       ImageComponent.style_maxWidth := 500%Q;
       ImageComponent.style_width := Num 500%Q |}
  /\ JS.Math_round (76 * (500 / 608))%Q = 63%Q.
Proof. split; vm_compute; reflexivity. Qed.

Example calculateDimensions_unknown_size :
  ImageComponent.calculateDimensions "logo.svg" Inherit Inherit 500%Q None
  = {| ImageComponent.style_height := Num 200%Q;
       ImageComponent.style_maxWidth := 500%Q;
       ImageComponent.style_width := Num 200%Q |}.
Proof. vm_compute. reflexivity. Qed.

Example isSVG_samples :
  ImageComponent.isSVG "Chart.SVG" = true
  /\ ImageComponent.isSVG "chart.svg.png" = false
  /\ ImageComponent.isSVG "svg" = false.
Proof. repeat split; reflexivity. Qed.

(** ** ImageComponent *)

Lemma isLoadError_run (st : ImageComponent.State)
    (events : list ImageComponent.Event) :
  ImageComponent.isLoadError (ImageComponent.run st events)
  = ImageComponent.isLoadError st
    || existsb ImageComponent.is_ImgError events.
Proof.
  unfold ImageComponent.run. revert st.
  induction events as [|e events IH]; intros st; simpl.
  - rewrite orb_false_r. reflexivity.
  - rewrite IH. destruct e; simpl; try reflexivity.
    rewrite orb_true_r. reflexivity.
Qed.

Lemma existsb_is_ImgError (events : list ImageComponent.Event) :
  existsb ImageComponent.is_ImgError events = true
  <-> In ImageComponent.ImgError events.
Proof.
  rewrite existsb_exists. split.
  - intros [e [Hin He]]. destruct e; try discriminate. exact Hin.
  - intros Hin. exists ImageComponent.ImgError. split; [exact Hin | reflexivity].
Qed.

(** C3, as the code has it: every error passed to the editor's onError
    handler is logged and rethrown unchanged. ImageComponent does recover
    from one failure: once the img element has reported a load error, and
    only then, it renders BrokenImage in place of the image; before that
    the image slot holds the LazyImage of the node's src, altText, width,
    height, maxWidth and imgRounded. *)
Theorem onError_rethrows_and_image_fallback :
  (forall (E : Type) (error : E) (console : list (string * E)),
     App.onError error console
     = ((console ++ [("error", error)])%list, Throw error))
  /\ (forall props st events,
        ImageComponent.view_image
          (ImageComponent.render props (ImageComponent.run st events))
        = ImageComponent.BrokenImage
        <-> ImageComponent.isLoadError st = true
            \/ In ImageComponent.ImgError events)
  /\ (forall props st events,
        ImageComponent.view_image
          (ImageComponent.render props (ImageComponent.run st events))
        <> ImageComponent.BrokenImage ->
        exists p,
          ImageComponent.view_image
            (ImageComponent.render props (ImageComponent.run st events))
          = ImageComponent.LazyImageElement p
          /\ ImageComponent.lazy_src p = ImageComponentProps.src props
          /\ ImageComponent.lazy_altText p = ImageComponentProps.altText props
          /\ ImageComponent.lazy_width p = ImageComponentProps.width props
          /\ ImageComponent.lazy_height p = ImageComponentProps.height props
          /\ ImageComponent.lazy_maxWidth p
             = ImageComponentProps.maxWidth props
          /\ ImageComponent.lazy_imgRounded p
             = ImageComponentProps.imgRounded props).
Proof.
  split; [reflexivity |]. split.
  - intros props st events. rewrite <- existsb_is_ImgError.
    rewrite <- orb_true_iff, <- isLoadError_run.
    unfold ImageComponent.render. simpl.
    destruct (ImageComponent.isLoadError (ImageComponent.run st events));
      split; congruence.
  - intros props st events. unfold ImageComponent.render. simpl.
    destruct (ImageComponent.isLoadError (ImageComponent.run st events)).
    + intros Hne. exfalso. apply Hne. reflexivity.
    + intros _. eexists. split; [reflexivity |]. simpl. tauto.
Qed.

Lemma onError_rethrows_and_image_fallback_witness :
  ImageComponent.view_image
    (ImageComponent.render (ImageNode.decorate sample_node)
       (ImageComponent.run (ImageComponent.initialState true true)
          [ImageComponent.ResizeStart; ImageComponent.ImgError;
           ImageComponent.ResizeEndTimer]))
  = ImageComponent.BrokenImage
  /\ exists p,
       ImageComponent.view_image
         (ImageComponent.render (ImageNode.decorate sample_node)
            (ImageComponent.run (ImageComponent.initialState true true)
               [ImageComponent.ResizeStart]))
       = ImageComponent.LazyImageElement p
       /\ ImageComponent.lazy_src p = "https://example.org/cat.png".
Proof.
  destruct onError_rethrows_and_image_fallback as (_ & Hbroken & Himage).
  split.
  - apply Hbroken. right. simpl. tauto.
  - destruct (Himage (ImageNode.decorate sample_node)
                (ImageComponent.initialState true true)
                [ImageComponent.ResizeStart])
      as (p & Hp & Hsrc & _); [discriminate |].
    exists p. split; [exact Hp | exact Hsrc].
Defined.

(** C3, as stated, fails: after the img element reported a load error the
    component shows BrokenImage where it showed the image before. *)
Lemma broken_image_substituted_on_load_error :
  let props := ImageNode.decorate sample_node in
  let st := ImageComponent.initialState false true in
  (exists p,
     ImageComponent.view_image (ImageComponent.render props st)
     = ImageComponent.LazyImageElement p
     /\ ImageComponent.lazy_src p = "https://example.org/cat.png")
  /\ ImageComponent.view_image
       (ImageComponent.render props
          (ImageComponent.handle st ImageComponent.ImgError))
     = ImageComponent.BrokenImage.
Proof.
  split; [eexists; split; reflexivity | reflexivity].
Qed.

(** ** App and OnChangePlugin *)

Section Storage.
Context `{Host}.

Lemma string_truthy_Some (k : string) :
  JS.string_truthy (Some k) = true <-> k <> "".
Proof. destruct k; simpl; split; congruence. Qed.

Lemma setItem_if_truthy (key : option string) (value : string)
    (localStorage : gmap string string) :
  let after :=
    if JS.string_truthy key then App.setItem localStorage key value
    else localStorage in
  (forall k, key = Some k -> k <> "" -> after !! k = Some value)
  /\ (forall k, (key = Some k -> k = "") -> after !! k = localStorage !! k)
  /\ (key = None \/ key = Some "" -> after = localStorage).
Proof.
  cbv zeta. unfold App.setItem. repeat split.
  - intros k -> Hk. apply string_truthy_Some in Hk. rewrite Hk. simpl.
    apply lookup_insert_eq.
  - intros k Hk. destruct key as [[|c r]|]; simpl; try reflexivity.
    apply lookup_insert_ne. intros <-. specialize (Hk eq_refl). discriminate.
  - intros [-> | ->]; reflexivity.
Qed.

(** C1, as the code has it. After the update listener ran for an update
    with editor state [editorState]: if the URL has a non-empty storageKey
    parameter, localStorage under that key holds
    JSON.stringify(editorState.toJSON()); if it has a non-empty
    htmlStorageKey parameter that is not also the storageKey, localStorage
    under that key holds the HTML generated from the state; every entry
    under another key is unchanged; and a parameter that is absent or empty
    causes no write at all. *)
Theorem updateListener_storage (params : App.URLSearchParams)
    (editorState : EditorState) (localStorage : gmap string string) :
  let after := App.updateListener params editorState localStorage in
  let json := JSON_stringify (EditorState_toJSON editorState) in
  let html := generateHtmlFromNodes editorState in
  (forall k, App.get params "storageKey" = Some k -> k <> "" ->
             after !! k = Some json)
  /\ (forall k, App.get params "htmlStorageKey" = Some k -> k <> "" ->
                App.get params "storageKey" <> Some k ->
                after !! k = Some html)
  /\ (forall k, (App.get params "storageKey" = Some k -> k = "") ->
                (App.get params "htmlStorageKey" = Some k -> k = "") ->
                after !! k = localStorage !! k)
  /\ (App.get params "storageKey" = None
      \/ App.get params "storageKey" = Some "" ->
      after = App.onHtmlChange params html localStorage)
  /\ (App.get params "htmlStorageKey" = None
      \/ App.get params "htmlStorageKey" = Some "" ->
      after = App.onStateChange params json localStorage).
Proof.
  cbv zeta.
  change (App.updateListener params editorState localStorage)
    with (App.onStateChange params
            (JSON_stringify (EditorState_toJSON editorState))
            (App.onHtmlChange params (generateHtmlFromNodes editorState)
               localStorage)).
  unfold App.onStateChange, App.onHtmlChange, App.storageKey,
    App.htmlStorageKey.
  set (json := JSON_stringify (EditorState_toJSON editorState)).
  set (html := generateHtmlFromNodes editorState).
  set (sk := App.get params "storageKey").
  set (hk := App.get params "htmlStorageKey").
  destruct (setItem_if_truthy hk html localStorage)
    as (Hh_set & Hh_other & Hh_none).
  set (mid := if JS.string_truthy hk then App.setItem localStorage hk html
              else localStorage) in *.
  destruct (setItem_if_truthy sk json mid) as (Hs_set & Hs_other & Hs_none).
  repeat split.
  - exact Hs_set.
  - intros k Hk Hne Hsk. rewrite Hs_other by (intros; congruence).
    apply Hh_set; assumption.
  - intros k Hs Hh. rewrite Hs_other by assumption. apply Hh_other, Hh.
  - exact Hs_none.
  - intros Hnone. rewrite (Hh_none Hnone). reflexivity.
Qed.

End Storage.

Lemma updateListener_storage_witness :
  let after :=
    App.updateListener (H := sample_host) sample_params sample_state
      sample_storage in
  after !! "doc" = Some "[Hello]"
  /\ after !! "doc-html" = Some "<p>Hello</p>"
  /\ after !! "theme" = Some "dark"
  /\ App.updateListener (H := sample_host) [("htmlStorageKey", "")]
       sample_state sample_storage = sample_storage.
Proof.
  cbv zeta.
  destruct (updateListener_storage (H := sample_host) sample_params
              sample_state sample_storage) as (Hjson & Hhtml & Hother & _).
  destruct (updateListener_storage (H := sample_host)
              [("htmlStorageKey", "")] sample_state sample_storage)
    as (_ & _ & _ & Hnostate & Hnohtml).
  split; [| split; [| split]].
  - apply Hjson; [reflexivity | discriminate].
  - apply Hhtml; [reflexivity | discriminate | discriminate].
  - rewrite Hother; [reflexivity | discriminate | discriminate].
  - rewrite Hnostate by (left; reflexivity). reflexivity.
Defined.

(** C1, as stated, fails in two ways: when both parameters name the same
    key, the entry holds the JSON, not the HTML; and when the storageKey
    parameter is there but empty, nothing is written under it. *)
Lemma updateListener_same_key_or_empty_key :
  (let params := [("storageKey", "doc"); ("htmlStorageKey", "doc")] in
   App.get params "htmlStorageKey" = Some "doc"
   /\ generateHtmlFromNodes (Host := sample_host) sample_state
      = "<p>Hello</p>"
   /\ App.updateListener (H := sample_host) params sample_state ∅ !! "doc"
      = Some "[Hello]")
  /\ (let params := [("storageKey", "")] in
      App.get params "storageKey" = Some ""
      /\ App.updateListener (H := sample_host) params sample_state ∅ !! ""
         = None).
Proof. repeat split; vm_compute; reflexivity. Qed.



Example initial_editorState_samples :
  App.editorState (App.initialConfig sample_params ∅) = None
  /\ App.editorState (App.initialConfig sample_params (<["doc" := ""]> ∅))
     = None
  /\ App.editorState (App.initialConfig [] (<["null" := "[x]"]> ∅))
     = Some "[x]".
Proof. repeat split; vm_compute; reflexivity. Qed.

(** ** InsertLayoutDialog *)

Lemma lookup_map_Some {A B : Type} (f : A -> B) (l : list A) (i : nat)
    (x : A) :
  l !! i = Some x -> List.map f l !! i = Some (f x).
Proof.
  revert i. induction l as [|y l IH]; intros [|i] Hx; simpl in *;
    try discriminate.
  - congruence.
  - apply IH, Hx.
Qed.

(** C6: the selected layout starts as the value of the first LAYOUTS entry,
    '1fr 1fr'; a click on a dropdown item sets the selection to the value of
    that item; a click on the Insert button dispatches INSERT_LAYOUT_COMMAND
    on the active editor with the selected layout value and then calls
    onClose, once, and leaves the selection as it is. *)
Theorem InsertLayoutDialog_spec (activeEditor : LexicalEditor) :
  InsertLayoutDialog.initialLayout = "1fr 1fr"
  /\ InsertLayoutDialog.value <$> InsertLayoutDialog.LAYOUTS !! 0%nat
     = Some InsertLayoutDialog.initialLayout
  /\ (forall layout i l,
        InsertLayoutDialog.LAYOUTS !! i = Some l ->
        InsertLayoutDialog.click activeEditor layout
          (InsertLayoutDialog.ClickItem i)
        = (InsertLayoutDialog.value l, []))
  /\ (forall layout,
        InsertLayoutDialog.click activeEditor layout
          InsertLayoutDialog.ClickInsert
        = (layout,
           [InsertLayoutDialog.dispatchCommand activeEditor
              InsertLayoutDialog.INSERT_LAYOUT_COMMAND layout;
            InsertLayoutDialog.onClose])).
Proof.
  repeat split.
  intros layout i l Hl.
  unfold InsertLayoutDialog.click, InsertLayoutDialog.render.
  cbn [InsertLayoutDialog.items].
  rewrite (lookup_map_Some _ _ _ _ Hl). reflexivity.
Qed.

Lemma InsertLayoutDialog_spec_witness :
  InsertLayoutDialog.click 4%nat "1fr 1fr" (InsertLayoutDialog.ClickItem 4)
  = ("1fr 2fr 1fr", []).
Proof.
  destruct (InsertLayoutDialog_spec 4%nat) as (_ & _ & Hitem & _).
  apply (Hitem "1fr 1fr" 4%nat
           {| InsertLayoutDialog.label := "3 colonnes (25% - 50% - 25%)";
              InsertLayoutDialog.value := "1fr 2fr 1fr" |}).
  reflexivity.
Defined.

Example InsertLayoutDialog_session :
  InsertLayoutDialog.clicks 4%nat InsertLayoutDialog.initialLayout
    [InsertLayoutDialog.ClickItem 1; InsertLayoutDialog.ClickItem 6;
     InsertLayoutDialog.ClickInsert]
  = ("2fr 3fr 0fr",
     [InsertLayoutDialog.dispatchCommand 4%nat
        InsertLayoutDialog.INSERT_LAYOUT_COMMAND "2fr 3fr 0fr";
      InsertLayoutDialog.onClose]).
Proof. reflexivity. Qed.

(** ** A remark on clone

    [ImageNode.clone] goes through the constructor, so the copy of a node
    whose width is the number 0 has the width 'inherit'. *)
Example clone_zero_width :
  __width (fst (ImageNode.clone (H := sample_host) sample_node_zero
                  sample_world)) = Inherit
  /\ __height (fst (ImageNode.clone (H := sample_host) sample_node_zero
                      sample_world)) = Num (3 # 2)
  /\ __key (fst (ImageNode.clone (H := sample_host) sample_node_zero
                   sample_world)) = "4".
Proof. repeat split. Qed.

(** * Further properties of the sources *)

(** ** ImageNode: clone, creation and the serialized form *)

Lemma dim_or_inherit_idempotent (d : Dim) :
  dim_or_inherit (Some (dim_or_inherit (Some d))) = dim_or_inherit (Some d).
Proof.
  destruct d as [|q]; [reflexivity |]. simpl.
  destruct (JS.number_truthy q) eqn:Hq; simpl; [rewrite Hq |]; reflexivity.
Qed.

Lemma captionsEnabled_Some (b : bool) :
  bool_or_false (Some b) || is_undefined (Some b) = b.
Proof. destruct b; reflexivity. Qed.

Section NodeLifecycle.
Context `{Host}.

(** X1: clone() copies a node without touching the store: no key is drawn
    and no caption editor is created, the copy has the key and the caption
    editor of the original. Every field is copied as it is, except that a
    width or height equal to the number 0 becomes 'inherit'. Cloning the
    copy again changes nothing, and a node without a 0 side is copied
    exactly. *)
Theorem clone_spec (n : ImageNode) (w : World) :
  let n' := fst (ImageNode.clone n w) in
  snd (ImageNode.clone n w) = w
  /\ n' = {| __key := __key n; __src := __src n; __altText := __altText n;
             __width := dim_or_inherit (Some (__width n));
             __height := dim_or_inherit (Some (__height n));
             __maxWidth := __maxWidth n;
             __showCaption := __showCaption n;
             __imgRounded := __imgRounded n;
             __imgZoomable := __imgZoomable n;
             __caption := __caption n;
             __captionsEnabled := __captionsEnabled n;
             __title := __title n; __className := __className n |}
  /\ fst (ImageNode.clone n' w) = n'
  /\ ((forall q, __width n = Num q -> ~ (q == 0)%Q) ->
      (forall q, __height n = Num q -> ~ (q == 0)%Q) ->
      n' = n).
Proof.
  cbv zeta.
  assert (Hclone : forall m : ImageNode,
            ImageNode.clone m w
            = ({| __key := __key m; __src := __src m;
                  __altText := __altText m;
                  __width := dim_or_inherit (Some (__width m));
                  __height := dim_or_inherit (Some (__height m));
                  __maxWidth := __maxWidth m;
                  __showCaption := __showCaption m;
                  __imgRounded := __imgRounded m;
                  __imgZoomable := __imgZoomable m;
                  __caption := __caption m;
                  __captionsEnabled := __captionsEnabled m;
                  __title := __title m; __className := __className m |}, w)).
  { intros m. unfold ImageNode.clone, ImageNode.constructor, setNodeKey, bind,
      ret. rewrite captionsEnabled_Some, !bool_or_false_Some. reflexivity. }
  rewrite !Hclone. cbn [fst snd].
  split; [reflexivity |]. split; [reflexivity |]. split.
  - cbn -[dim_or_inherit]. rewrite !dim_or_inherit_idempotent. reflexivity.
  - intros Hw Hh. destruct n as [k s a wd ht m sc r z c ce t cl]. simpl in *.
    f_equal.
    + destruct wd as [|q]; [reflexivity |].
      apply dim_or_inherit_Num_truthy, (Hw q eq_refl).
    + destruct ht as [|q]; [reflexivity |].
      apply dim_or_inherit_Num_truthy, (Hh q eq_refl).
Qed.



(** X4: the round trip from the serialized side. exportJSON(importJSON(s))
    has the altText, src, maxWidth, showCaption, imgRounded, imgZoomable,
    title and className of s; its type is 'image' and its version 1; its
    width and height are always numbers, 0 where s had none or had 0; its
    caption is the serialised state of the new caption editor. *)
Theorem exportJSON_importJSON (s : SerializedImageNode.t) (w : World) :
  let n := fst (ImageNode.importJSON s w) in
  let w' := snd (ImageNode.importJSON s w) in
  let s' := fst (ImageNode.exportJSON n w') in
  let parsed :=
    parseEditorState (ser_editorState (SerializedImageNode.caption s)) in
  let side (q : option JS.number) : JS.number :=
    match q with
    | Some v => if JS.number_truthy v then v else 0%Q
    | None => 0%Q
    end in
  snd (ImageNode.exportJSON n w') = w'
  /\ SerializedImageNode.type s' = "image"
  /\ SerializedImageNode.version s' = 1%nat
  /\ SerializedImageNode.altText s' = SerializedImageNode.altText s
  /\ SerializedImageNode.src s' = SerializedImageNode.src s
  /\ SerializedImageNode.maxWidth s' = SerializedImageNode.maxWidth s
  /\ SerializedImageNode.showCaption s' = SerializedImageNode.showCaption s
  /\ SerializedImageNode.imgRounded s' = SerializedImageNode.imgRounded s
  /\ SerializedImageNode.imgZoomable s' = SerializedImageNode.imgZoomable s
  /\ SerializedImageNode.title s' = SerializedImageNode.title s
  /\ SerializedImageNode.className s' = SerializedImageNode.className s
  /\ SerializedImageNode.width s' = Some (side (SerializedImageNode.width s))
  /\ SerializedImageNode.height s'
     = Some (side (SerializedImageNode.height s))
  /\ ser_editorState (SerializedImageNode.caption s')
     = EditorState_toJSON
         (if EditorState_isEmpty parsed then emptyEditorState else parsed).
Proof.
  cbv zeta.
  unfold ImageNode.exportJSON, ImageNode.caption_toJSON, getEditorState,
    ImageNode.getAltText, ImageNode.getSrc, ImageNode.getType.
  unfold ImageNode.importJSON, ImageNode.createImageNode,
    ImageNode.constructor, ImageNode.updateFromJSON,
    ImageNode.super_updateFromJSON, applyNodeReplacement, createEditor,
    setNodeKey, setEditorState, bind, ret.
  cbn -[dim_or_inherit bool_or_false JS.string_or lookup_total].
  destruct (EditorState_isEmpty _);
    cbn -[dim_or_inherit bool_or_false JS.string_or lookup_total].
  all: rewrite ?bool_or_false_Some, ?lookup_total_insert_eq.
  all: repeat match goal with |- _ /\ _ => split end.
  all: try reflexivity.
  all: try (destruct (SerializedImageNode.title s); reflexivity).
  all: try (destruct (SerializedImageNode.className s); reflexivity).
  all: try (destruct (SerializedImageNode.width s) as [q|]; simpl;
            [destruct (JS.number_truthy q)|]; reflexivity).
  all: try (destruct (SerializedImageNode.height s) as [q|]; simpl;
            [destruct (JS.number_truthy q)|]; reflexivity).
Qed.

End NodeLifecycle.

Lemma clone_spec_witness :
  fst (ImageNode.clone (H := sample_host) sample_node sample_world)
  = sample_node.
Proof.
  destruct (clone_spec (H := sample_host) sample_node sample_world)
    as (_ & _ & _ & Hsame).
  apply Hsame.
  - intros q [= <-]. discriminate.
  - intros q [=].
Defined.



(** Importing the exported sample node into the sample store: the key
    counter goes from 7 to 10, one key for the image node and two for the
    nodes of its caption, and the node map gains the image node under
    '7'. *)
Example importJSON_sample_store :
  let s := fst (ImageNode.exportJSON (H := sample_host) sample_node
                  sample_world) in
  let n := fst (ImageNode.importJSON s sample_world) in
  let w' := snd (ImageNode.importJSON s sample_world) in
  keyCounter sample_world = 7%nat
  /\ keyCounter w' = 10%nat
  /\ nodeMap sample_world !! "7" = None
  /\ nodeMap w' !! "7" = Some (IsImageNode n)
  /\ __key n = "7".
Proof. vm_compute. repeat split. Qed.

(** A payload without a key registers the new node; a payload with a key
    does not. *)
Example createImageNode_sample_store :
  let p (k : option NodeKey) :=
    {| ImagePayload.altText := "a cat"; ImagePayload.caption := None;
       ImagePayload.height := None; ImagePayload.key := k;
       ImagePayload.maxWidth := None; ImagePayload.showCaption := None;
       ImagePayload.imgRounded := None; ImagePayload.imgZoomable := None;
       ImagePayload.src := "cat.png"; ImagePayload.width := None;
       ImagePayload.captionsEnabled := None; ImagePayload.title := None;
       ImagePayload.className := None |} in
  nodeMap (snd (ImageNode.createImageNode (H := sample_host) (p None)
                  sample_world)) !! "7"
  = Some (IsImageNode
            (fst (ImageNode.createImageNode (H := sample_host) (p None)
                    sample_world)))
  /\ nodeMap (snd (ImageNode.createImageNode (H := sample_host)
                     (p (Some "3")) sample_world))
     = nodeMap sample_world.
Proof. vm_compute. repeat split. Qed.

(** ** App: persistence across updates and reloads *)

Section Persistence.
Context `{Host}.

Lemma updateListener_twice (params : App.URLSearchParams)
    (s1 s2 : EditorState) (localStorage : gmap string string) :
  App.updateListener params s2 (App.updateListener params s1 localStorage)
  = App.updateListener params s2 localStorage.
Proof.
  unfold App.updateListener, OnChangePlugin.updateListener, App.onHtmlChange,
    App.onStateChange, App.setItem, App.storageKey, App.htmlStorageKey.
  destruct (JS.string_truthy (App.get params "storageKey"));
    destruct (JS.string_truthy (App.get params "htmlStorageKey"));
    try reflexivity.
  - apply map_eq. intros k. rewrite !lookup_insert.
    repeat case_decide; reflexivity.
  - apply insert_insert_eq.
  - apply insert_insert_eq.
Qed.

(** X5: only the last update counts. After the listener has run for a
    sequence of updates, localStorage is what the listener makes of the
    last editor state alone: the entries it writes are overwritten each
    time, and nothing accumulates. *)
Theorem updateListener_last_update_wins (params : App.URLSearchParams)
    (earlier : list EditorState) (last : EditorState)
    (localStorage : gmap string string) :
  fold_left (fun ls st => App.updateListener params st ls)
    (earlier ++ [last]) localStorage
  = App.updateListener params last localStorage.
Proof.
  revert localStorage. induction earlier as [|st earlier IH];
    intros localStorage; simpl.
  - reflexivity.
  - rewrite IH. apply updateListener_twice.
Qed.

(** X6: what is saved is what the next page load starts from. With a
    non-empty storageKey parameter, the initial editor state computed from
    the localStorage that the update listener left is the JSON of the last
    editor state, except that a JSON text that is empty or is 'undefined'
    is read back as null. *)
Theorem saved_state_is_reloaded (params : App.URLSearchParams)
    (st : EditorState) (localStorage : gmap string string) (k : string) :
  App.get params "storageKey" = Some k ->
  k <> "" ->
  let json := JSON_stringify (EditorState_toJSON st) in
  App.editorState
    (App.initialConfig params (App.updateListener params st localStorage))
  = (if bool_decide (json = "" \/ json = "undefined") then None
     else Some json).
Proof.
  intros Hk Hne json.
  unfold App.initialConfig, App.dataFromStorage, App.getItem,
    App.typeof_undefined. cbn [App.editorState].
  change (App.updateListener params st localStorage)
    with (App.onStateChange params json
            (App.onHtmlChange params (generateHtmlFromNodes st)
               localStorage)).
  unfold App.onStateChange, App.setItem, App.storageKey. rewrite Hk.
  apply string_truthy_Some in Hne. rewrite Hne. cbn [JS.DOMString].
  rewrite lookup_insert_eq.
  clearbody json. destruct json as [|c r]; [reflexivity |].
  cbn [JS.string_truthy negb orb].
  destruct (decide (String c r = "undefined")) as [Hu | Hu].
  - rewrite Hu. reflexivity.
  - rewrite (bool_decide_eq_false_2 (Some (String c r) = Some "undefined"))
      by congruence.
    rewrite bool_decide_eq_false_2; [reflexivity |].
    intros [? | ?]; [discriminate | contradiction].
Qed.

End Persistence.

Lemma saved_state_is_reloaded_witness :
  App.editorState
    (App.initialConfig sample_params
       (App.updateListener (H := sample_host) sample_params sample_state
          sample_storage))
  = Some "[Hello]".
Proof.
  apply (saved_state_is_reloaded (H := sample_host) sample_params sample_state
           sample_storage "doc"); [reflexivity | discriminate].
Defined.

(** ** App: the import map *)

Lemma obj_set_fresh {V : Type} (obj : list (string * V)) (key : string)
    (value : V) :
  ~ In key (map fst obj) ->
  ImportMap.obj_set obj key value = (obj ++ [(key, value)])%list.
Proof.
  induction obj as [|[k v] obj IH]; simpl; intros Hfresh.
  - reflexivity.
  - destruct (String.eqb_spec k key) as [->|Hne].
    + exfalso. apply Hfresh. left. reflexivity.
    + rewrite IH; [reflexivity |]. intros Hin. apply Hfresh. right. exact Hin.
Qed.

Lemma not_default_false (s d : string) :
  negb (String.eqb s "") && negb (String.eqb s d) = false
  <-> s = "" \/ s = d.
Proof.
  destruct (String.eqb_spec s "") as [->|Hs]; simpl.
  - split; auto.
  - destruct (String.eqb_spec s d) as [->|Hd]; simpl.
    + split; auto.
    + split; [discriminate | intros [?|?]; contradiction].
Qed.

Section ImportMapProperties.
Variable parseAllowedFontSize : string -> string.
Variable parseAllowedColor : string -> string.
Variables HTMLElement LexicalNode NodeOutput : Type.
Variable style : HTMLElement -> ImportMap.CSSStyle.
Variable isTextNode : LexicalNode -> bool.
Variable getStyle : LexicalNode -> string.
Variable setStyle : LexicalNode -> string -> LexicalNode.

#[local] Abbreviation getExtraStyles :=
  (ImportMap.getExtraStyles parseAllowedFontSize parseAllowedColor
     HTMLElement style).
#[local] Abbreviation conversion_with_styles :=
  (ImportMap.conversion_with_styles parseAllowedFontSize parseAllowedColor
     HTMLElement LexicalNode NodeOutput style isTextNode getStyle setStyle).
#[local] Abbreviation importer_with_styles :=
  (ImportMap.importer_with_styles parseAllowedFontSize parseAllowedColor
     HTMLElement LexicalNode NodeOutput style isTextNode getStyle setStyle).
#[local] Abbreviation buildImportMap :=
  (ImportMap.buildImportMap parseAllowedFontSize parseAllowedColor
     HTMLElement LexicalNode NodeOutput style isTextNode getStyle setStyle).

(** X7: getExtraStyles returns the empty string exactly when nothing
    differs from what exportDOM would produce by default: the allowed font
    size is empty or '15px', the allowed background colour is empty or
    white, and the allowed colour is empty or black. *)
Theorem getExtraStyles_empty_iff (element : HTMLElement) :
  getExtraStyles element = ""
  <-> (let fontSize :=
         parseAllowedFontSize (ImportMap.fontSize (style element)) in
       fontSize = "" \/ fontSize = "15px")
      /\ (let backgroundColor :=
            parseAllowedColor (ImportMap.backgroundColor (style element)) in
          backgroundColor = "" \/ backgroundColor = "rgb(255, 255, 255)")
      /\ (let color :=
            parseAllowedColor (ImportMap.color (style element)) in
          color = "" \/ color = "rgb(0, 0, 0)").
Proof.
  cbv zeta. rewrite <- !not_default_false.
  unfold ImportMap.getExtraStyles.
  set (f := parseAllowedFontSize _).
  set (b := parseAllowedColor (ImportMap.backgroundColor _)).
  set (c := parseAllowedColor (ImportMap.color _)).
  destruct (negb (String.eqb f "") && negb (String.eqb f "15px"));
    destruct (negb (String.eqb b "")
              && negb (String.eqb b "rgb(255, 255, 255)"));
    destruct (negb (String.eqb c "") && negb (String.eqb c "rgb(0, 0, 0)"));
    cbv [String.append]; split; try tauto; try discriminate;
    intros (? & ? & ?); discriminate.
Qed.

(** X8: buildImportMap keeps the tags of TextNode.importDOM(), in their
    order, and puts under each tag the wrapped importer; when
    TextNode.importDOM() is null the map is empty. The entries of an object
    have distinct keys. *)
Theorem buildImportMap_entries
    (entries :
       list (string
             * (HTMLElement
                -> option (ImportMap.DOMConversion HTMLElement LexicalNode
                             NodeOutput)))) :
  NoDup (map fst entries) ->
  buildImportMap (Some entries)
  = map (fun e => (fst e, importer_with_styles (snd e))) entries
  /\ buildImportMap None = [].
Proof.
  intros Hnodup. split; [| reflexivity].
  unfold ImportMap.buildImportMap. cbn [JS.nullish].
  change (map (fun e => (fst e, importer_with_styles (snd e))) entries)
    with ([] ++ map (fun e => (fst e, importer_with_styles (snd e))) entries)%list.
  assert (Hdisj : forall k, In k (map fst entries) ->
                            ~ In k (map fst (@nil (string * (HTMLElement -> option (ImportMap.DOMConversion HTMLElement LexicalNode NodeOutput))))))
    by (intros k _ []).
  revert Hdisj. generalize (@nil (string * (HTMLElement -> option (ImportMap.DOMConversion HTMLElement LexicalNode NodeOutput)))) as acc.
  induction entries as [|[tag fn] entries IH]; intros acc Hdisj; simpl.
  - rewrite app_nil_r. reflexivity.
  - apply NoDup_cons in Hnodup as [Hnotin Hnodup]. 
    rewrite obj_set_fresh by (apply Hdisj; left; reflexivity).
    rewrite (IH Hnodup).
    + rewrite <- app_assoc. reflexivity.
    + intros k Hk. rewrite map_app, in_app_iff. simpl.
      intros [Hin | [<- | []]].
      * apply (Hdisj k); [right; exact Hk | exact Hin].
      * apply Hnotin. apply list_elem_of_In. exact Hk.
Qed.

(** X9: the wrapped importer hands through what it does not style. It is
    null exactly when the importer of TextNode is null for that node, and
    it keeps the priority. Its conversion returns the output of the
    original conversion unchanged when that output is null, has no
    forChild, has an after, has a node, or when the element has no extra
    styles. *)
Theorem importer_with_styles_passes_through
    (fn : HTMLElement
          -> option (ImportMap.DOMConversion HTMLElement LexicalNode
                       NodeOutput))
    (importNode element : HTMLElement) :
  (importer_with_styles fn importNode = None <-> fn importNode = None)
  /\ (forall importer,
        fn importNode = Some importer ->
        exists wrapped,
          importer_with_styles fn importNode = Some wrapped
          /\ ImportMap.priority wrapped
             = ImportMap.priority importer
          /\ ImportMap.conversion wrapped
             = conversion_with_styles importer
          /\ (match ImportMap.conversion importer element with
              | None => True
              | Some out =>
                  ImportMap.forChild out = None
                  \/ ImportMap.after out <> None
                  \/ ImportMap.node out <> None
                  \/ getExtraStyles element = ""
              end ->
              ImportMap.conversion wrapped element
              = ImportMap.conversion importer element)).
Proof.
  unfold ImportMap.importer_with_styles. split.
  - destruct (fn importNode); split; congruence.
  - intros importer ->. eexists. split; [reflexivity |].
    split; [reflexivity |]. split; [reflexivity |].
    cbn [ImportMap.conversion]. unfold ImportMap.conversion_with_styles.
    destruct (ImportMap.conversion importer element) as [out|];
      [| reflexivity].
    destruct out as [[a|] [f|] [n|]]; cbn; try reflexivity.
    intros [Hf | [Ha | [Hn | He]]]; try congruence.
    rewrite He. reflexivity.
Qed.

(** X10: where the wrapped conversion does style. When the original output
    has a forChild, no after and a null node, and the element has extra
    styles, the output keeps its (absent) after and its null node, and its
    new forChild returns what the original forChild returns, except that a
    text node comes back with the extra styles appended to its style. A
    child that is not a text node, and a null result, come back as they
    are. *)
Theorem conversion_with_styles_appends
    (importer : ImportMap.DOMConversion HTMLElement LexicalNode NodeOutput)
    (element : HTMLElement)
    (forChild : LexicalNode -> option LexicalNode -> option LexicalNode) :
  ImportMap.conversion importer element
  = Some {| ImportMap.after := None;
            ImportMap.forChild := Some forChild;
            ImportMap.node := None |} ->
  getExtraStyles element <> "" ->
  exists forChild',
    conversion_with_styles importer element
    = Some {| ImportMap.after := None;
              ImportMap.forChild := Some forChild';
              ImportMap.node := None |}
    /\ forall child parent,
         forChild' child parent
         = match forChild child parent with
           | Some t =>
               if isTextNode t
               then Some (setStyle t (getStyle t +:+ getExtraStyles element))
               else Some t
           | None => None
           end.
Proof.
  intros Hout Hextra. unfold ImportMap.conversion_with_styles.
  rewrite Hout. cbn.
  destruct (getExtraStyles element) as [|c r] eqn:He; [congruence |].
  cbn. eexists. split; [reflexivity |].
  intros child parent. unfold ImportMap.forChild_with_styles.
  destruct (forChild child parent) as [t|]; [| reflexivity].
  destruct (isTextNode t); reflexivity.
Qed.

End ImportMapProperties.

Lemma buildImportMap_entries_witness :
  map fst
    (ImportMap.buildImportMap (fun s => s) (fun s => s)
       ImportMap.CSSStyle (string * string) unit (fun e => e)
       (fun _ => true) sample_text_style sample_set_style
       (Some [("span", fun _ => None); ("b", fun _ => None)]))
  = ["span"; "b"].
Proof.
  destruct (buildImportMap_entries (fun s => s) (fun s => s)
              ImportMap.CSSStyle (string * string) unit (fun e => e)
              (fun _ => true) sample_text_style sample_set_style
              [("span", fun _ => None); ("b", fun _ => None)]) as [Hmap _].
  - apply (bool_decide_unpack _). vm_compute. exact I.
  - rewrite Hmap. reflexivity.
Defined.

Lemma importer_with_styles_passes_through_witness :
  let plain :=
    {| ImportMap.fontSize := "15px"; ImportMap.backgroundColor := "";
       ImportMap.color := "rgb(0, 0, 0)" |} in
  let output :=
    {| ImportMap.after := None;
       ImportMap.forChild := Some (fun child (_ : option (string * string)) =>
                                     Some child);
       ImportMap.node := @None unit |} in
  let importer :=
    {| ImportMap.conversion := fun _ : ImportMap.CSSStyle => Some output;
       ImportMap.priority := Some 0%nat |} in
  exists wrapped,
    ImportMap.importer_with_styles (fun s => s) (fun s => s)
      ImportMap.CSSStyle (string * string) unit (fun e => e)
      (fun _ => true) sample_text_style sample_set_style
      (fun _ => Some importer) plain = Some wrapped
    /\ ImportMap.conversion wrapped plain = Some output.
Proof.
  intros plain output importer.
  destruct (importer_with_styles_passes_through (fun s => s) (fun s => s)
              ImportMap.CSSStyle (string * string) unit (fun e => e)
              (fun _ => true) sample_text_style sample_set_style
              (fun _ => Some importer) plain plain) as [_ Hsome].
  destruct (Hsome importer eq_refl) as (wrapped & Hw & _ & _ & Hpass).
  exists wrapped. split; [exact Hw |].
  apply Hpass. simpl. right. right. right. reflexivity.
Defined.

Lemma conversion_with_styles_appends_witness :
  let red :=
    {| ImportMap.fontSize := "15px"; ImportMap.backgroundColor := "";
       ImportMap.color := "rgb(255, 0, 0)" |} in
  let output :=
    {| ImportMap.after := None;
       ImportMap.forChild := Some (fun child (_ : option (string * string)) =>
                                     Some child);
       ImportMap.node := @None unit |} in
  let importer :=
    {| ImportMap.conversion := fun _ : ImportMap.CSSStyle => Some output;
       ImportMap.priority := Some 0%nat |} in
  exists forChild',
    ImportMap.forChild
      <$> ImportMap.conversion_with_styles (fun s => s) (fun s => s)
            ImportMap.CSSStyle (string * string) unit (fun e => e)
            (fun _ => true) sample_text_style sample_set_style importer red
    = Some (Some forChild')
    /\ forChild' ("pasted", "font-weight: bold;") None
       = Some ("pasted", "font-weight: bold;color: rgb(255, 0, 0);").
Proof.
  intros red output importer.
  destruct (conversion_with_styles_appends (fun s => s) (fun s => s)
              ImportMap.CSSStyle (string * string) unit (fun e => e)
              (fun _ => true) sample_text_style sample_set_style
              importer red (fun child _ => Some child))
    as (forChild' & Hconv & Hchild).
  - reflexivity.
  - vm_compute. discriminate.
  - exists forChild'. split.
    + rewrite Hconv. reflexivity.
    + rewrite Hchild. reflexivity.
Defined.

(** ** InsertLayoutDialog: every session *)

Lemma click_layout_in_LAYOUTS (activeEditor : LexicalEditor)
    (layout : string) (c : InsertLayoutDialog.Click) :
  In layout (map InsertLayoutDialog.value InsertLayoutDialog.LAYOUTS) ->
  In (fst (InsertLayoutDialog.click activeEditor layout c))
    (map InsertLayoutDialog.value InsertLayoutDialog.LAYOUTS).
Proof.
  intros Hin. destruct c as [i|]; [| exact Hin].
  unfold InsertLayoutDialog.click, InsertLayoutDialog.render.
  cbn [InsertLayoutDialog.items].
  destruct (InsertLayoutDialog.LAYOUTS !! i) as [l|] eqn:Hl.
  - rewrite (lookup_map_Some _ _ _ _ Hl).
    cbn [fst InsertLayoutDialog.item_onClick].
    apply in_map. apply list_elem_of_In. apply list_elem_of_lookup. eauto.
  - destruct (map _ InsertLayoutDialog.LAYOUTS !! i) as [item|] eqn:Hi;
      [| exact Hin].
    exfalso. apply lookup_lt_Some in Hi. rewrite length_map in Hi.
    apply lookup_ge_None in Hl. lia.
Qed.

Lemma clicks_app (activeEditor : LexicalEditor) (layout : string)
    (cs1 cs2 : list InsertLayoutDialog.Click) :
  InsertLayoutDialog.clicks activeEditor layout (cs1 ++ cs2)
  = let '(layout1, calls1) :=
      InsertLayoutDialog.clicks activeEditor layout cs1 in
    let '(layout2, calls2) :=
      InsertLayoutDialog.clicks activeEditor layout1 cs2 in
    (layout2, (calls1 ++ calls2)%list).
Proof.
  revert layout. induction cs1 as [|c cs1 IH]; intros layout; simpl.
  - destruct (InsertLayoutDialog.clicks activeEditor layout cs2).
    reflexivity.
  - destruct (InsertLayoutDialog.click activeEditor layout c) as [l1 k1].
    rewrite IH.
    destruct (InsertLayoutDialog.clicks activeEditor l1 cs1) as [l2 k2].
    destruct (InsertLayoutDialog.clicks activeEditor l2 cs2) as [l3 k3].
    rewrite app_assoc. reflexivity.
Qed.

(** X11: whatever the user clicks, in whatever order, starting from the
    freshly opened dialog: the selected layout is always the value of one
    of the LAYOUTS entries, so the dropdown button always has a label;
    every dispatched command is INSERT_LAYOUT_COMMAND on the active editor
    with one of those values; and onClose is called once for each click on
    Insert, no more and no less. *)
Theorem InsertLayoutDialog_sessions (activeEditor : LexicalEditor)
    (cs : list InsertLayoutDialog.Click) :
  let layout :=
    fst (InsertLayoutDialog.clicks activeEditor
           InsertLayoutDialog.initialLayout cs) in
  let calls :=
    snd (InsertLayoutDialog.clicks activeEditor
           InsertLayoutDialog.initialLayout cs) in
  In layout (map InsertLayoutDialog.value InsertLayoutDialog.LAYOUTS)
  /\ is_Some (InsertLayoutDialog.buttonLabel
                (InsertLayoutDialog.render activeEditor layout))
  /\ (forall editor command payload,
        In (InsertLayoutDialog.dispatchCommand editor command payload) calls ->
        editor = activeEditor
        /\ In payload
             (map InsertLayoutDialog.value InsertLayoutDialog.LAYOUTS))
  /\ length (List.filter is_onClose calls)
     = length (List.filter is_ClickInsert cs).
Proof.
  cbv zeta.
  assert (Hinit : In InsertLayoutDialog.initialLayout
                    (map InsertLayoutDialog.value InsertLayoutDialog.LAYOUTS))
    by (left; reflexivity).
  revert Hinit. generalize InsertLayoutDialog.initialLayout as layout.
  induction cs as [|c cs IH]; intros layout Hin.
  - cbn [InsertLayoutDialog.clicks fst snd].
    split; [exact Hin |]. split; [| split; [intros ? ? ? [] | reflexivity]].
    unfold InsertLayoutDialog.render. cbn [InsertLayoutDialog.buttonLabel].
    destruct (List.find _ InsertLayoutDialog.LAYOUTS) as [l|] eqn:Hfind;
      [eexists; reflexivity |].
    exfalso. apply in_map_iff in Hin as (l & Hl & Hinl).
    apply (find_none _ _ Hfind) in Hinl. rewrite Hl in Hinl.
    rewrite String.eqb_refl in Hinl. discriminate.
  - pose proof (click_layout_in_LAYOUTS activeEditor layout c Hin) as Hnext.
    specialize (IH _ Hnext).
    cbn [InsertLayoutDialog.clicks].
    destruct (InsertLayoutDialog.click activeEditor layout c) as [l1 k1] eqn:Hc.
    cbn [fst] in IH, Hnext.
    destruct (InsertLayoutDialog.clicks activeEditor l1 cs) as [l2 k2].
    cbn [fst snd] in *.
    destruct IH as (IH1 & IH2 & IH3 & IH4).
    split; [exact IH1 |]. split; [exact IH2 |].
    destruct c as [i|].
    + assert (k1 = []) as ->.
      { unfold InsertLayoutDialog.click in Hc.
        destruct (_ !! i); injection Hc as _ <-; reflexivity. }
      simpl. split; [exact IH3 | exact IH4].
    + unfold InsertLayoutDialog.click, InsertLayoutDialog.render in Hc.
      cbn in Hc. injection Hc as <- <-.
      split.
      * intros editor command payload [Heq | [Heq | Hin']].
        -- injection Heq as <- _ <-. split; [reflexivity | exact Hin].
        -- discriminate.
        -- apply IH3 in Hin'. exact Hin'.
      * simpl. rewrite IH4. reflexivity.
Qed.

Lemma InsertLayoutDialog_sessions_witness :
  4%nat = 4%nat
  /\ In "2fr 3fr 0fr"
       (map InsertLayoutDialog.value InsertLayoutDialog.LAYOUTS).
Proof.
  destruct (InsertLayoutDialog_sessions 4%nat
              [InsertLayoutDialog.ClickItem 6; InsertLayoutDialog.ClickInsert])
    as (_ & _ & Hcalls & _).
  apply (Hcalls 4%nat InsertLayoutDialog.INSERT_LAYOUT_COMMAND "2fr 3fr 0fr").
  left. reflexivity.
Defined.

(** X12: Insert sends the item clicked last. If the last item clicked
    before pressing Insert is the i-th entry of LAYOUTS, then, whatever was
    clicked before, the final calls are the dispatch of
    INSERT_LAYOUT_COMMAND with the value of that entry followed by
    onClose. *)
Theorem InsertLayoutDialog_inserts_last_choice (activeEditor : LexicalEditor)
    (layout : string) (before : list InsertLayoutDialog.Click) (i : nat)
    (l : InsertLayoutDialog.Layout) :
  InsertLayoutDialog.LAYOUTS !! i = Some l ->
  InsertLayoutDialog.clicks activeEditor layout
    (before ++ [InsertLayoutDialog.ClickItem i; InsertLayoutDialog.ClickInsert])
  = (InsertLayoutDialog.value l,
     (snd (InsertLayoutDialog.clicks activeEditor layout before)
      ++ [InsertLayoutDialog.dispatchCommand activeEditor
            InsertLayoutDialog.INSERT_LAYOUT_COMMAND
            (InsertLayoutDialog.value l);
          InsertLayoutDialog.onClose])%list).
Proof.
  intros Hl. rewrite clicks_app.
  destruct (InsertLayoutDialog.clicks activeEditor layout before) as [l1 k1].
  cbn [snd InsertLayoutDialog.clicks].
  unfold InsertLayoutDialog.click at 1, InsertLayoutDialog.render at 1.
  cbn [InsertLayoutDialog.items].
  rewrite (lookup_map_Some _ _ _ _ Hl). reflexivity.
Qed.

Lemma InsertLayoutDialog_inserts_last_choice_witness :
  InsertLayoutDialog.clicks 4%nat "1fr 1fr"
    [InsertLayoutDialog.ClickInsert; InsertLayoutDialog.ClickItem 1;
     InsertLayoutDialog.ClickItem 3; InsertLayoutDialog.ClickInsert]
  = ("1fr 1fr 1fr",
     [InsertLayoutDialog.dispatchCommand 4%nat
        InsertLayoutDialog.INSERT_LAYOUT_COMMAND "1fr 1fr";
      InsertLayoutDialog.onClose;
      InsertLayoutDialog.dispatchCommand 4%nat
        InsertLayoutDialog.INSERT_LAYOUT_COMMAND "1fr 1fr 1fr";
      InsertLayoutDialog.onClose]).
Proof.
  apply (InsertLayoutDialog_inserts_last_choice 4%nat "1fr 1fr"
           [InsertLayoutDialog.ClickInsert; InsertLayoutDialog.ClickItem 1]
           3%nat
           {| InsertLayoutDialog.label := "3 colonnes (largeur égale)";
              InsertLayoutDialog.value := "1fr 1fr 1fr" |}).
  reflexivity.
Defined.

(** ** ImageComponent: SVG sources, sizes, the image cache *)

Lemma append_cons (c : ascii) (a b : string) :
  String c a +:+ b = String c (a +:+ b).
Proof. reflexivity. Qed.

Lemma append_empty_r (a : string) : a +:+ "" = a.
Proof.
  induction a as [|c a IH]; [reflexivity |].
  rewrite append_cons, IH. reflexivity.
Qed.

Lemma append_associative (a b c : string) :
  (a +:+ b) +:+ c = a +:+ (b +:+ c).
Proof.
  induction a as [|d a IH]; [reflexivity |].
  rewrite !append_cons, IH. reflexivity.
Qed.

Lemma rev_app_append (s a b : string) :
  String.rev_app s (a +:+ b) = String.rev_app s a +:+ b.
Proof.
  revert a. induction s as [|c s IH]; intros a; [reflexivity |].
  simpl. rewrite <- append_cons. apply IH.
Qed.

Lemma rev_cons (c : ascii) (s : string) :
  String.rev (String c s) = String.rev s +:+ String c "".
Proof.
  unfold String.rev. simpl.
  change (String c "") with ("" +:+ String c "") at 1.
  apply rev_app_append.
Qed.

Lemma rev_append (a b : string) :
  String.rev (a +:+ b) = String.rev b +:+ String.rev a.
Proof.
  induction a as [|c a IH].
  - change (String.rev "") with "". rewrite append_empty_r. reflexivity.
  - rewrite append_cons, !rev_cons, IH, append_associative. reflexivity.
Qed.

Lemma rev_involutive (s : string) : String.rev (String.rev s) = s.
Proof.
  induction s as [|c s IH]; [reflexivity |].
  rewrite rev_cons, rev_append, IH. reflexivity.
Qed.

Lemma endsWith_spec (s search : string) :
  JS.endsWith s search = true <-> exists p, s = p +:+ search.
Proof.
  unfold JS.endsWith. rewrite prefix_spec. split.
  - intros [r Hr]. exists (String.rev r).
    rewrite <- (rev_involutive s), Hr, rev_append, rev_involutive.
    reflexivity.
  - intros [p ->]. exists (String.rev p). apply rev_append.
Qed.

Lemma toLowerCase_append (a b : string) :
  JS.toLowerCase (a +:+ b) = JS.toLowerCase a +:+ JS.toLowerCase b.
Proof.
  induction a as [|c a IH]; [reflexivity |].
  rewrite append_cons. simpl. rewrite IH. reflexivity.
Qed.

Lemma toLowerCase_split (s a b : string) :
  JS.toLowerCase s = a +:+ b ->
  exists p e, s = p +:+ e /\ JS.toLowerCase p = a /\ JS.toLowerCase e = b.
Proof.
  revert s. induction a as [|c a IH]; intros s Hs.
  - exists "", s. repeat split. exact Hs.
  - destruct s as [|d s]; [discriminate |].
    rewrite append_cons in Hs. simpl in Hs. injection Hs as Hd Hs.
    destruct (IH s Hs) as (p & e & -> & Hp & He).
    exists (String d p), e. repeat split; [| exact He].
    simpl. rewrite Hd, Hp. reflexivity.
Qed.

(** X13: isSVG holds exactly for the sources that end in '.svg', whatever
    the case of these four characters. In particular a source with a query
    string or a fragment after the extension is not taken for an SVG. *)
Theorem isSVG_spec (src : string) :
  ImageComponent.isSVG src = true
  <-> exists name ext,
        src = name +:+ ext /\ JS.toLowerCase ext = ".svg".
Proof.
  unfold ImageComponent.isSVG. rewrite endsWith_spec. split.
  - intros [p Hp]. apply toLowerCase_split in Hp as (name & ext & -> & _ & He).
    exists name, ext. split; [reflexivity | exact He].
  - intros (name & ext & -> & He). exists (JS.toLowerCase name).
    rewrite toLowerCase_append, He. reflexivity.
Qed.

Lemma whole_nonneg (z : Z) : (0 <= z)%Z -> (0 <= inject_Z z)%Q.
Proof.
  intros Hz. change 0%Q with (inject_Z 0). rewrite <- Zle_Qle. exact Hz.
Qed.

Lemma Math_round_nonneg (x : JS.number) :
  (0 <= x)%Q -> (0 <= JS.Math_round x)%Q.
Proof.
  intros Hx. unfold JS.Math_round. apply whole_nonneg.
  change 0%Z with (Qfloor 0). apply Qfloor_resp_le. lra.
Qed.

Lemma div_nonneg (a b : JS.number) :
  (0 <= a)%Q -> (0 < b)%Q -> (0 <= JS.div a b)%Q.
Proof.
  intros Ha Hb. unfold JS.div. apply to_double_nonneg.
  apply Qle_shift_div_l; lra.
Qed.

Lemma Math_round_error (x : JS.number) :
  (x - (1 # 2) < JS.Math_round x)%Q /\ (JS.Math_round x <= x + (1 # 2))%Q.
Proof.
  split; [| apply Math_round_le].
  unfold JS.Math_round.
  pose proof (Qlt_floor (x + (1 # 2))) as Hlt.
  rewrite inject_Z_plus in Hlt. change (inject_Z 1) with 1%Q in Hlt. lra.
Qed.

(** X14: for an SVG and a maxWidth that is a whole number and not
    negative, the width and the height that calculateDimensions returns are
    whole numbers and not negative. (They can be 0: a very flat image
    rounds to a height of 0.) *)
Theorem calculateDimensions_whole (src : string) (width height : Dim)
    (maxWidth : JS.number) (dimensions : option ImageComponent.Dimensions)
    (m : Z) :
  ImageComponent.isSVG src = true ->
  (maxWidth == inject_Z m)%Q ->
  (0 <= m)%Z ->
  exists w h : JS.number,
    ImageComponent.calculateDimensions src width height maxWidth dimensions
    = {| ImageComponent.style_height := Num h;
         ImageComponent.style_maxWidth := maxWidth;
         ImageComponent.style_width := Num w |}
    /\ (exists a : Z, (0 <= a)%Z /\ (w == inject_Z a)%Q)
    /\ (exists b : Z, (0 <= b)%Z /\ (h == inject_Z b)%Q).
Proof.
  intros Hsvg HM Hm.
  rewrite (calculateDimensions_svg_cases _ _ _ _ _ Hsvg).
  set (nw := known_or_200 (ImageComponent.dimensions_width <$> dimensions)).
  set (nh := known_or_200 (ImageComponent.dimensions_height <$> dimensions)).
  destruct (known_or_200_whole
              (ImageComponent.dimensions_width <$> dimensions))
    as (a & Ha & Hnw).
  destruct (known_or_200_whole
              (ImageComponent.dimensions_height <$> dimensions))
    as (b & Hb & Hnh).
  fold nw in Hnw. fold nh in Hnh.
  assert (Hnw0 : (0 < nw)%Q).
  { rewrite Hnw. change 0%Q with (inject_Z 0). rewrite <- Zlt_Qlt. lia. }
  assert (Hnh0 : (0 < nh)%Q).
  { rewrite Hnh. change 0%Q with (inject_Z 0). rewrite <- Zlt_Qlt. lia. }
  assert (HM0 : (0 <= maxWidth)%Q) by (rewrite HM; apply whole_nonneg, Hm).
  assert (Hround : forall x : JS.number,
             (0 <= x)%Q ->
             exists c : Z, (0 <= c)%Z /\ (JS.Math_round x == inject_Z c)%Q).
  { intros x Hx. exists (Qfloor (x + (1 # 2))). split; [| reflexivity].
    pose proof (Math_round_nonneg x Hx) as Hr. unfold JS.Math_round in Hr.
    change 0%Q with (inject_Z 0) in Hr. rewrite <- Zle_Qle in Hr. exact Hr. }
  eexists. eexists. split; [reflexivity |].
  destruct (ImageComponent.gt nw maxWidth) eqn:Hgw.
  - set (h1 := JS.Math_round (JS.mul nh (JS.div maxWidth nw))).
    assert (Hx1 : (0 <= JS.mul nh (JS.div maxWidth nw))%Q)
      by (apply mul_nonneg; [lra | apply div_nonneg; lra]).
    destruct (ImageComponent.gt h1 500%Q) eqn:Hgh.
    + apply gt_true in Hgh. split.
      * apply Hround. apply mul_nonneg; [lra | apply div_nonneg; lra].
      * exists 500%Z. split; [lia | reflexivity].
    + split.
      * exists m. split; assumption.
      * apply Hround, Hx1.
  - destruct (ImageComponent.gt nh 500%Q) eqn:Hgh.
    + apply gt_true in Hgh. split.
      * apply Hround. apply mul_nonneg; [lra | apply div_nonneg; lra].
      * exists 500%Z. split; [lia | reflexivity].
    + split.
      * exists a. split; [lia | rewrite Hnw; reflexivity].
      * exists b. split; [lia | rewrite Hnh; reflexivity].
Qed.

Lemma calculateDimensions_whole_witness :
  exists w h : JS.number,
    ImageComponent.calculateDimensions "Chart.SVG" Inherit Inherit 500%Q
      (Some sample_dimensions)
    = {| ImageComponent.style_height := Num h;
         ImageComponent.style_maxWidth := 500%Q;
         ImageComponent.style_width := Num w |}
    /\ (exists a : Z, (0 <= a)%Z /\ (w == inject_Z a)%Q)
    /\ (exists b : Z, (0 <= b)%Z /\ (h == inject_Z b)%Q).
Proof.
  apply (calculateDimensions_whole "Chart.SVG" Inherit Inherit 500%Q
           (Some sample_dimensions) 500%Z);
    [reflexivity | reflexivity | lia].
Defined.

Lemma round_half_even_error (t : Q) :
  (t - (1 # 2) <= inject_Z (JS.round_half_even t))%Q
  /\ (inject_Z (JS.round_half_even t) <= t + (1 # 2))%Q.
Proof.
  unfold JS.round_half_even.
  pose proof (Qfloor_le t) as Hlo. pose proof (Qlt_floor t) as Hhi.
  rewrite inject_Z_plus in Hhi. change (inject_Z 1) with 1%Q in Hhi.
  destruct (Qcompare_spec (t - inject_Z (Qfloor t)) (1 # 2)) as [He | Hl | Hg];
    [destruct (Z.even (Qfloor t)) | |];
    rewrite ?inject_Z_plus; change (inject_Z 1) with 1%Q; split; lra.
Qed.

(** A positive number is rounded by at most half a unit in its last
    place. *)
Lemma to_double_error (x : Q) :
  (0 < x)%Q ->
  (x - JS.pow2 (JS.ulp_exponent x) * (1 # 2) <= JS.to_double x)%Q
  /\ (JS.to_double x <= x + JS.pow2 (JS.ulp_exponent x) * (1 # 2))%Q.
Proof.
  intros Hx. unfold JS.to_double.
  apply Qnum_pos in Hx as Hn. destruct Hn as [p Hn]. rewrite Hn.
  unfold JS.to_double_pos.
  pose proof (pow2_pos (JS.ulp_exponent x)) as Hp.
  set (k := JS.pow2 (JS.ulp_exponent x)) in *.
  destruct (round_half_even_error (x / k)) as [Hlo Hhi].
  assert (Hx' : (x == x / k * k)%Q) by (field; lra).
  set (t := (x / k)%Q) in *. nra.
Qed.

Lemma ulp_exponent_below (x : Q) (n : Z) :
  (0 < x)%Q -> (x < JS.pow2 n)%Q -> (-1021 <= n)%Z ->
  (JS.pow2 (JS.ulp_exponent x) <= JS.pow2 (n - 53))%Q.
Proof.
  intros Hx Hlt Hn. apply pow2_le. unfold JS.ulp_exponent.
  destruct (Z.le_gt_cases n (JS.log2_floor x)) as [Hle | Hgt]; [| lia].
  exfalso. pose proof (log2_floor_lower x Hx) as Hlow.
  pose proof (pow2_le n (JS.log2_floor x) Hle) as Hmono. lra.
Qed.

(** The error of scaling a size below 2^32 by the double of a ratio below
    1: at most 2^-21. *)
Lemma scaled_error (x r : Q) :
  (0 < x)%Q -> (x < 4294967296)%Q -> (0 <= r)%Q -> (r < 1)%Q ->
  (x * r - (1 # 2097152) <= JS.mul x (JS.to_double r))%Q
  /\ (JS.mul x (JS.to_double r) <= x * r + (1 # 2097152))%Q.
Proof.
  intros Hx0 Hx32 Hr0 Hr1.
  assert (Hs : (r - (1 # 18014398509481984) <= JS.to_double r)%Q
               /\ (JS.to_double r <= r + (1 # 18014398509481984))%Q
               /\ (0 <= JS.to_double r)%Q /\ (JS.to_double r <= 1)%Q).
  { split; [| split; [| split]].
    3: apply to_double_nonneg, Hr0.
    3: { apply (to_double_le_whole _ 1); [lia |].
         change (inject_Z 1) with 1%Q. lra. }
    all: destruct (Qlt_le_dec 0 r) as [Hpos | Hzero].
    1, 3: destruct (to_double_error r Hpos) as [Hlo Hhi];
      pose proof (ulp_exponent_below r 0 Hpos Hr1 ltac:(lia)) as Hu;
      change (JS.pow2 (0 - 53)) with (/ (9007199254740992 # 1))%Q in Hu;
      assert (Hc : (/ (9007199254740992 # 1) == 1 # 9007199254740992)%Q)
        by reflexivity;
      rewrite Hc in Hu; lra.
    all: assert (Hr : (r == 0)%Q) by lra;
      pose proof (to_double_nonneg r Hr0);
      pose proof (to_double_nonpos r Hzero); lra. }
  destruct Hs as (Hs1 & Hs2 & Hs0 & Hs1').
  set (s := JS.to_double r) in *. unfold JS.mul.
  assert (Hp0 : (0 <= x * s)%Q) by nra.
  assert (Hp32 : (x * s < 4294967296)%Q) by nra.
  assert (Hp : (x * s - (1 # 4194304) <= JS.to_double (x * s))%Q
               /\ (JS.to_double (x * s) <= x * s + (1 # 4194304))%Q).
  { destruct (Qlt_le_dec 0 (x * s)) as [Hpos | Hzero].
    - destruct (to_double_error (x * s) Hpos) as [Hlo Hhi].
      assert (H32 : (x * s < JS.pow2 32)%Q)
        by (change (JS.pow2 32) with 4294967296%Q; exact Hp32).
      pose proof (ulp_exponent_below (x * s) 32 Hpos H32 ltac:(lia)) as Hu.
      change (JS.pow2 (32 - 53)) with (/ (2097152 # 1))%Q in Hu.
      assert (Hc : (/ (2097152 # 1) == 1 # 2097152)%Q) by reflexivity.
      rewrite Hc in Hu. lra.
    - pose proof (to_double_nonneg _ Hp0).
      pose proof (to_double_nonpos _ Hzero). lra. }
  nra.
Qed.

(** X15: the aspect ratio is kept to within half a pixel, up to the
    rounding of the double arithmetic, which is below 2^-21 for sizes that
    are unsigned 32-bit integers. For an SVG whose natural width is above a
    maxWidth that is not negative and whose scaled, rounded height is at
    most 500, the returned height differs from naturalHeight * maxWidth /
    naturalWidth by at most 1/2 + 2^-21; for an SVG that fits maxWidth and
    whose natural height is above 500, the returned width differs from
    naturalWidth * 500 / naturalHeight by at most 1/2 + 2^-21. *)
Theorem calculateDimensions_keeps_ratio (src : string) (width height : Dim)
    (maxWidth : JS.number) (dimensions : option ImageComponent.Dimensions) :
  let style :=
    ImageComponent.calculateDimensions src width height maxWidth dimensions in
  let naturalWidth :=
    known_or_200 (ImageComponent.dimensions_width <$> dimensions) in
  let naturalHeight :=
    known_or_200 (ImageComponent.dimensions_height <$> dimensions) in
  ImageComponent.isSVG src = true ->
  (naturalWidth < 4294967296)%Q ->
  (naturalHeight < 4294967296)%Q ->
  ((0 <= maxWidth)%Q -> (maxWidth < naturalWidth)%Q ->
   (JS.Math_round (JS.mul naturalHeight (JS.div maxWidth naturalWidth))
    <= 500)%Q ->
   exists h : JS.number,
     style = {| ImageComponent.style_height := Num h;
                ImageComponent.style_maxWidth := maxWidth;
                ImageComponent.style_width := Num maxWidth |}
     /\ (naturalHeight * (maxWidth / naturalWidth)
         - (1 # 2) - (1 # 2097152) <= h)%Q
     /\ (h <= naturalHeight * (maxWidth / naturalWidth)
              + (1 # 2) + (1 # 2097152))%Q)
  /\ ((naturalWidth <= maxWidth)%Q -> (500 < naturalHeight)%Q ->
      exists w : JS.number,
        style = {| ImageComponent.style_height := Num 500%Q;
                   ImageComponent.style_maxWidth := maxWidth;
                   ImageComponent.style_width := Num w |}
        /\ (naturalWidth * (500 / naturalHeight)
            - (1 # 2) - (1 # 2097152) <= w)%Q
        /\ (w <= naturalWidth * (500 / naturalHeight)
                 + (1 # 2) + (1 # 2097152))%Q).
Proof.
  intros style nw nh Hsvg Hnw32 Hnh32. subst style.
  rewrite (calculateDimensions_svg_cases _ _ _ _ _ Hsvg). fold nw nh.
  destruct (known_or_200_whole
              (ImageComponent.dimensions_width <$> dimensions))
    as (a & Ha & Hnw).
  destruct (known_or_200_whole
              (ImageComponent.dimensions_height <$> dimensions))
    as (b & Hb & Hnh).
  fold nw in Hnw. fold nh in Hnh.
  assert (Hnw0 : (0 < nw)%Q).
  { rewrite Hnw. change 0%Q with (inject_Z 0). rewrite <- Zlt_Qlt. lia. }
  assert (Hnh0 : (0 < nh)%Q).
  { rewrite Hnh. change 0%Q with (inject_Z 0). rewrite <- Zlt_Qlt. lia. }
  split.
  - intros HM0 Hgw Hfit. apply gt_true in Hgw as Hgw'. rewrite Hgw'.
    assert (Hgh : ImageComponent.gt
                    (JS.Math_round (JS.mul nh (JS.div maxWidth nw))) 500%Q
                  = false) by (apply gt_false; exact Hfit).
    rewrite Hgh. eexists. split; [reflexivity |].
    assert (Hr0 : (0 <= maxWidth / nw)%Q) by (apply Qle_shift_div_l; lra).
    assert (Hr1 : (maxWidth / nw < 1)%Q) by (apply Qlt_shift_div_r; lra).
    destruct (scaled_error nh (maxWidth / nw) Hnh0 Hnh32 Hr0 Hr1)
      as [Hlo Hhi].
    fold (JS.div maxWidth nw) in Hlo, Hhi.
    destruct (Math_round_error (JS.mul nh (JS.div maxWidth nw))) as [Hrl Hrh].
    split; lra.
  - intros Hgw Hgh. apply gt_false in Hgw. apply gt_true in Hgh as Hgh'.
    rewrite Hgw, Hgh'. eexists. split; [reflexivity |].
    assert (Hr0 : (0 <= 500 / nh)%Q) by (apply Qle_shift_div_l; lra).
    assert (Hr1 : (500 / nh < 1)%Q) by (apply Qlt_shift_div_r; lra).
    destruct (scaled_error nw (500 / nh) Hnw0 Hnw32 Hr0 Hr1) as [Hlo Hhi].
    fold (JS.div 500%Q nh) in Hlo, Hhi.
    destruct (Math_round_error (JS.mul nw (JS.div 500%Q nh))) as [Hrl Hrh].
    split; lra.
Qed.

Lemma calculateDimensions_keeps_ratio_witness :
  (exists h : JS.number,
     ImageComponent.calculateDimensions "Chart.SVG" Inherit Inherit 1%Q
       (Some sample_dimensions)
     = {| ImageComponent.style_height := Num h;
          ImageComponent.style_maxWidth := 1%Q;
          ImageComponent.style_width := Num 1%Q |}
     /\ (319 <= h)%Q /\ (h <= 321)%Q)
  /\ (exists w : JS.number,
        ImageComponent.calculateDimensions "Chart.SVG" Inherit Inherit 500%Q
          (Some sample_dimensions)
        = {| ImageComponent.style_height := Num 500%Q;
             ImageComponent.style_maxWidth := 500%Q;
             ImageComponent.style_width := Num w |}
        /\ (1 <= w)%Q /\ (w <= 3)%Q).
Proof.
  split.
  - destruct (calculateDimensions_keeps_ratio "Chart.SVG" Inherit Inherit 1%Q
                (Some sample_dimensions) eq_refl eq_refl eq_refl) as [Hwide _].
    destruct Hwide as (h & Heq & Hlo & Hhi).
    + vm_compute. discriminate.
    + reflexivity.
    + vm_compute. discriminate.
    + exists h. split; [exact Heq |]. split.
      * eapply Qle_trans; [| exact Hlo]. vm_compute. discriminate.
      * eapply Qle_trans; [exact Hhi |]. vm_compute. discriminate.
  - destruct (calculateDimensions_keeps_ratio "Chart.SVG" Inherit Inherit
                500%Q (Some sample_dimensions) eq_refl eq_refl eq_refl)
      as [_ Htall].
    destruct Htall as (w & Heq & Hlo & Hhi).
    + vm_compute. discriminate.
    + reflexivity.
    + exists w. split; [exact Heq |]. split.
      * eapply Qle_trans; [| exact Hlo]. vm_compute. discriminate.
      * eapply Qle_trans; [exact Hhi |]. vm_compute. discriminate.
Defined.

(** X16: the image cache only grows, and a source is in it once its image
    has loaded or has failed to load. From then on, with that cache or any
    larger one, useSuspenseImage no longer suspends for that source and
    LazyImage renders its img element; sources cached before stay cached.
    Only a successful load resolves the promise that was thrown. *)
Theorem imageCache_after_load (imageCache later : gset string)
    (src : string) (p : ImageComponent.LazyImageProps)
    (dimensions : option ImageComponent.Dimensions) :
  let loaded := ImageCache.img_onload imageCache src in
  let failed := ImageCache.img_onerror imageCache src in
  fst loaded = fst failed
  /\ snd loaded = true
  /\ snd failed = false
  /\ imageCache ⊆ fst failed
  /\ (fst failed ⊆ later ->
      ImageCache.useSuspenseImage later src = false
      /\ (ImageComponent.lazy_src p = src ->
          is_Some (ImageComponent.LazyImage later p dimensions)))
  /\ (ImageComponent.lazy_src p ∉ later ->
      ImageCache.useSuspenseImage later (ImageComponent.lazy_src p) = true
      /\ ImageComponent.LazyImage later p dimensions = None).
Proof.
  cbv zeta. unfold ImageCache.img_onload, ImageCache.img_onerror,
    ImageCache.useSuspenseImage, ImageComponent.LazyImage. cbn [fst snd].
  split; [reflexivity |]. split; [reflexivity |]. split; [reflexivity |].
  split; [set_solver |]. split.
  - intros Hsub. assert (Hin : src ∈ later) by set_solver. split.
    + rewrite bool_decide_eq_true_2 by exact Hin. reflexivity.
    + intros ->. rewrite bool_decide_eq_true_2 by exact Hin.
      eexists. reflexivity.
  - intros Hnotin. rewrite bool_decide_eq_false_2 by exact Hnotin.
    split; reflexivity.
Qed.

Lemma imageCache_after_load_witness :
  let p :=
    {| ImageComponent.lazy_otherClassName := Some "wide";
       ImageComponent.lazy_className := None;
       ImageComponent.lazy_src := "cat.png";
       ImageComponent.lazy_altText := "a cat";
       ImageComponent.lazy_title := Some "";
       ImageComponent.lazy_width := Num 320%Q;
       ImageComponent.lazy_height := Inherit;
       ImageComponent.lazy_maxWidth := 500%Q;
       ImageComponent.lazy_imgRounded := false |} in
  ImageComponent.LazyImage ∅ p None = None
  /\ is_Some (ImageComponent.LazyImage
                (fst (ImageCache.img_onerror ∅ "cat.png")) p None).
Proof.
  intros p.
  destruct (imageCache_after_load ∅ ∅ "cat.png" p None)
    as (_ & _ & _ & _ & _ & Hbefore).
  destruct (imageCache_after_load ∅ (fst (ImageCache.img_onerror ∅ "cat.png"))
              "cat.png" p None) as (_ & _ & _ & _ & Hafter & _).
  split.
  - apply Hbefore. set_solver.
  - apply Hafter; reflexivity.
Defined.

(** ** ImageComponent: what is shown after a run of events *)

(** X17: the resizer after any run of events. Whenever the component shows
    its ImageResizer, the editor is editable, the selection cell holds a
    node selection and the node is selected or being resized; and the
    resizer offers captions exactly when the node has them enabled and the
    image has not reported a load error since the component was mounted.
    A draggable image is selected and is not being resized. *)
Theorem resizer_after_events (props : ImageComponentProps.t)
    (st : ImageComponent.State) (events : list ImageComponent.Event) :
  let final := ImageComponent.run st events in
  let view := ImageComponent.render props final in
  (forall r,
     ImageComponent.view_resizer view = Some r ->
     ImageComponent.isEditable final = true
     /\ ImageComponent.isNodeSelection (ImageComponent.selection final) = true
     /\ (ImageComponent.isSelected final = true
         \/ ImageComponent.isResizing final = true)
     /\ ImageComponentProps.resizable props = true
     /\ ImageComponent.resizer_captionsEnabled r
        = ImageComponentProps.captionsEnabled props
          && negb (ImageComponent.isLoadError st)
          && negb (existsb ImageComponent.is_ImgError events))
  /\ (ImageComponent.view_draggable view = true ->
      ImageComponent.isSelected final = true
      /\ ImageComponent.isResizing final = false
      /\ ImageComponent.isNodeSelection (ImageComponent.selection final)
         = true).
Proof.
  cbv zeta. pose proof (isLoadError_run st events) as Herr.
  unfold ImageComponent.render. cbn.
  set (final := ImageComponent.run st events) in *.
  split.
  - intros r.
    destruct (ImageComponentProps.resizable props); cbn; [| discriminate].
    destruct (ImageComponent.isNodeSelection (ImageComponent.selection final));
      cbn; [| discriminate].
    destruct (ImageComponent.isSelected final),
      (ImageComponent.isResizing final),
      (ImageComponent.isEditable final); cbn; try discriminate.
    all: intros [= <-]; cbn; rewrite Herr.
    all: repeat split; auto.
    all: destruct (ImageComponentProps.captionsEnabled props),
           (ImageComponent.isLoadError st),
           (existsb ImageComponent.is_ImgError events); reflexivity.
  - destruct (ImageComponent.isSelected final),
      (ImageComponent.isNodeSelection (ImageComponent.selection final)),
      (ImageComponent.isResizing final); cbn; intros Hd;
      try discriminate; repeat split.
Qed.

Lemma resizer_after_events_witness :
  exists r,
    ImageComponent.view_resizer
      (ImageComponent.render (ImageNode.decorate sample_node)
         (ImageComponent.run (ImageComponent.initialState true true)
            [ImageComponent.UpdateListener (Some ["3"]);
             ImageComponent.ImgError]))
    = Some r
    /\ ImageComponent.resizer_captionsEnabled r = false.
Proof.
  destruct (resizer_after_events (ImageNode.decorate sample_node)
              (ImageComponent.initialState true true)
              [ImageComponent.UpdateListener (Some ["3"]);
               ImageComponent.ImgError]) as [Hres _].
  eexists. split; [reflexivity |].
  match goal with
  | |- ImageComponent.resizer_captionsEnabled ?r = _ =>
      destruct (Hres r eq_refl) as (_ & _ & _ & _ & ->)
  end.
  reflexivity.
Defined.

(** X18: after the update listener of the component has seen a selection
    that is not a node selection (a range selection, another selection or
    none), the image is not draggable and no resizer is shown, whatever
    the rest of the state; after a node selection, the selection cell
    holds the keys of its nodes. *)
Theorem selectionListener_spec (props : ImageComponentProps.t)
    (st : ImageComponent.State)
    (updatedSelection : option ImageHandlers.Selection) :
  let st' :=
    ImageComponent.handle st
      (ImageHandlers.selectionListener updatedSelection) in
  (ImageHandlers.is_NodeSelection updatedSelection = false ->
   ImageComponent.selection st' = None
   /\ ImageComponent.view_draggable (ImageComponent.render props st') = false
   /\ ImageComponent.view_resizer (ImageComponent.render props st') = None)
  /\ (forall nodes,
        updatedSelection = Some (ImageHandlers.NodeSelection nodes) ->
        ImageComponent.selection st' = Some nodes)
  /\ ImageComponent.isLoadError st' = ImageComponent.isLoadError st
  /\ ImageComponent.isResizing st' = ImageComponent.isResizing st
  /\ ImageComponent.isSelected st' = ImageComponent.isSelected st.
Proof.
  cbv zeta. unfold ImageHandlers.selectionListener. split; [| split].
  - intros ->. cbn. rewrite !andb_false_r. auto.
  - intros nodes ->. reflexivity.
  - destruct (ImageHandlers.is_NodeSelection updatedSelection); auto.
Qed.

Lemma selectionListener_spec_witness :
  let st' :=
    ImageComponent.handle (ImageComponent.initialState true true)
      (ImageHandlers.selectionListener
         (Some (ImageHandlers.RangeSelection ["3"]))) in
  ImageComponent.view_resizer
    (ImageComponent.render (ImageNode.decorate sample_node) st') = None
  /\ ImageComponent.selection
       (ImageComponent.handle (ImageComponent.initialState true true)
          (ImageHandlers.selectionListener
             (Some (ImageHandlers.NodeSelection ["3"]))))
     = Some ["3"].
Proof.
  intros st'. split.
  - destruct (selectionListener_spec (ImageNode.decorate sample_node)
                (ImageComponent.initialState true true)
                (Some (ImageHandlers.RangeSelection ["3"])))
      as [Hnot _].
    destruct Hnot as (_ & _ & Hres); [reflexivity | exact Hres].
  - destruct (selectionListener_spec (ImageNode.decorate sample_node)
                (ImageComponent.initialState true true)
                (Some (ImageHandlers.NodeSelection ["3"])))
      as (_ & Hnode & _).
    apply Hnode. reflexivity.
Defined.

(** ** ImageComponent: the command handlers *)

(** X19: $onEnter handles the key exactly when the node is selected, the
    latest selection is a node selection of exactly one node, and either
    the caption is shown or the button of the resizer exists and does not
    have the focus. It prevents the default action exactly when it handles
    the key and makes no call at all otherwise. When handled, the focus
    goes to the caption editor if the caption is shown (after the selection
    is cleared), and to the button otherwise, never to both. *)
Theorem onEnter_spec (isSelected showCaption : bool)
    (latestSelection : option ImageHandlers.Selection)
    (buttonElem activeElement : option nat) :
  let handled :=
    fst (ImageHandlers.onEnter isSelected showCaption latestSelection
           buttonElem activeElement) in
  let calls :=
    snd (ImageHandlers.onEnter isSelected showCaption latestSelection
           buttonElem activeElement) in
  (handled = true
   <-> isSelected = true
       /\ (exists k, latestSelection = Some (ImageHandlers.NodeSelection [k]))
       /\ (showCaption = true
           \/ exists b, buttonElem = Some b /\ activeElement <> Some b))
  /\ (In ImageHandlers.preventDefault calls <-> handled = true)
  /\ (handled = false -> calls = [])
  /\ (handled = true -> showCaption = true ->
      calls = [ImageHandlers.setSelection_null; ImageHandlers.preventDefault;
               ImageHandlers.caption_focus])
  /\ (handled = true -> showCaption = false ->
      calls = [ImageHandlers.preventDefault; ImageHandlers.button_focus]).
Proof.
  cbv zeta. unfold ImageHandlers.onEnter.
  assert (Hone : forall s : option ImageHandlers.Selection,
            ImageHandlers.is_NodeSelection s
            && (length (ImageHandlers.getNodes s) =? 1)%nat = true
            <-> exists k, s = Some (ImageHandlers.NodeSelection [k])).
  { intros [[ns|ns|]|]; cbn; split; try discriminate;
      try (intros [k [=]]; fail).
    - destruct ns as [|k [|k' ns]]; try discriminate. eauto.
    - intros [k [= ->]]. reflexivity. }
  destruct isSelected; cbn [andb].
  2: { cbn. repeat split; try discriminate; try tauto.
       all: try (intros (? & _); discriminate). }
  destruct (ImageHandlers.is_NodeSelection latestSelection
            && (length (ImageHandlers.getNodes latestSelection) =? 1)%nat)
    eqn:Hsel.
  2: { cbn. repeat split; try discriminate; try tauto.
       all: try (intros (_ & Hk & _); apply Hone in Hk; congruence). }
  apply Hone in Hsel.
  destruct showCaption.
  { cbn. repeat split; auto; try discriminate; try tauto. }
  destruct buttonElem as [b|]; cbn [is_undefined negb andb].
  2: { cbn. repeat split; try discriminate; try tauto.
       all: try (intros (_ & _ & [? | (b & ? & _)]); discriminate). }
  destruct (decide (Some b = activeElement)) as [Heq | Hne].
  - rewrite bool_decide_eq_true_2 by exact Heq. cbn.
    repeat split; try discriminate; try tauto.
    all: try (intros (_ & _ & [? | (b' & [= <-] & Hb)]);
              [discriminate | congruence]).
  - rewrite bool_decide_eq_false_2 by exact Hne. cbn.
    repeat split; auto; try discriminate; try tauto.
    all: try (right; exists b; split; [reflexivity | congruence]).
Qed.

Lemma onEnter_spec_witness :
  ImageHandlers.onEnter true false (Some (ImageHandlers.NodeSelection ["3"]))
    (Some 8%nat) (Some 2%nat)
  = (true, [ImageHandlers.preventDefault; ImageHandlers.button_focus]).
Proof.
  destruct (onEnter_spec true false
              (Some (ImageHandlers.NodeSelection ["3"])) (Some 8%nat)
              (Some 2%nat)) as (Hhandled & _ & _ & _ & Hbutton).
  assert (Ht : fst (ImageHandlers.onEnter true false
                      (Some (ImageHandlers.NodeSelection ["3"]))
                      (Some 8%nat) (Some 2%nat)) = true).
  { apply Hhandled. split; [reflexivity |]. split; [eauto |].
    right. exists 8%nat. split; [reflexivity | discriminate]. }
  specialize (Hbutton Ht eq_refl).
  destruct (ImageHandlers.onEnter true false
              (Some (ImageHandlers.NodeSelection ["3"])) (Some 8%nat)
              (Some 2%nat)) as [h c].
  cbn [fst snd] in *. congruence.
Defined.

(** X20: onClick, which serves both CLICK_COMMAND and
    RIGHT_CLICK_IMAGE_COMMAND. It handles the command exactly when the
    image is being resized or the event target is the image of the
    component. It touches the selection only for a click on the image
    outside a resize: a plain click clears the selection and then selects
    the node, a shift-click toggles the node. *)
Theorem onClick_spec (isResizing isSelected : bool) (imageRef : option nat)
    (payload : ImageHandlers.MouseEvent) :
  let handled :=
    fst (ImageHandlers.onClick isResizing isSelected imageRef payload) in
  let calls :=
    snd (ImageHandlers.onClick isResizing isSelected imageRef payload) in
  let onImage :=
    imageRef = Some (ImageHandlers.elem (ImageHandlers.target payload)) in
  (handled = true <-> isResizing = true \/ onImage)
  /\ (calls <> [] <-> isResizing = false /\ onImage)
  /\ (isResizing = false -> onImage ->
      calls = if ImageHandlers.shiftKey payload
              then [ImageHandlers.setSelected (negb isSelected)]
              else [ImageHandlers.clearSelection;
                    ImageHandlers.setSelected true]).
Proof.
  cbv zeta. unfold ImageHandlers.onClick.
  destruct isResizing.
  { cbn. repeat split; auto; try discriminate; try tauto.
    all: try (intros [? _]; discriminate). }
  destruct (decide (Some (ImageHandlers.elem (ImageHandlers.target payload))
                    = imageRef)) as [Heq | Hne].
  - rewrite bool_decide_eq_true_2 by exact Heq. cbn [fst snd].
    repeat split; auto.
    all: try (intros _; destruct (ImageHandlers.shiftKey payload);
              discriminate).
  - rewrite bool_decide_eq_false_2 by exact Hne. cbn [fst snd].
    repeat split; try discriminate; try tauto; try congruence.
    all: try (intros [? | ?]; [discriminate | congruence]).
    all: try (intros [_ ?]; congruence).
Qed.

Lemma onClick_spec_witness :
  snd (ImageHandlers.onClick false true (Some 5%nat)
         {| ImageHandlers.target :=
              {| ImageHandlers.elem := 5; ImageHandlers.tagName := "IMG" |};
            ImageHandlers.shiftKey := true |})
  = [ImageHandlers.setSelected false].
Proof.
  destruct (onClick_spec false true (Some 5%nat)
              {| ImageHandlers.target :=
                   {| ImageHandlers.elem := 5;
                      ImageHandlers.tagName := "IMG" |};
                 ImageHandlers.shiftKey := true |}) as (_ & _ & Hcalls).
  apply Hcalls; reflexivity.
Defined.

(** ** ImageComponent: the update callbacks *)

Section ComponentCallbacks.
Context `{Host}.
Variable getWritable : ImageNode -> M ImageNode.

(** X21: when the node map has no image node under the key of the
    component (the node was removed, or the key names a node of another
    class), the four update callbacks of the component (setShowCaption,
    setImgRounded, setImgZoomable and onResizeEnd) change nothing: the
    store is left as it is, whatever getWritable would do. *)
Theorem callbacks_without_image_node (nodeKey : NodeKey) (w : World) :
  (forall n, nodeMap w !! nodeKey <> Some (IsImageNode n)) ->
  ImageComponent.setShowCaption getWritable nodeKey w = (tt, w)
  /\ (forall rounded,
        ImageComponent.setImgRounded getWritable nodeKey rounded w = (tt, w))
  /\ (forall zoomable,
        ImageComponent.setImgZoomable getWritable nodeKey zoomable w
        = (tt, w))
  /\ (forall nextWidth nextHeight,
        ImageComponent.onResizeEnd getWritable nodeKey nextWidth nextHeight w
        = (tt, w)).
Proof.
  intros Hnone.
  unfold ImageComponent.setShowCaption, ImageComponent.setImgRounded,
    ImageComponent.setImgZoomable, ImageComponent.onResizeEnd, getNodeByKey,
    bind, ret.
  destruct (nodeMap w !! nodeKey) as [[n|t]|] eqn:Hnode.
  - exfalso. apply (Hnone n). reflexivity.
  - repeat split.
  - repeat split.
Qed.

End ComponentCallbacks.

Lemma callbacks_without_image_node_witness :
  ImageComponent.onResizeEnd (H := sample_host) sample_getWritable "3"
    (Num 100%Q) (Num 50%Q) sample_world
  = (tt, sample_world).
Proof.
  destruct (callbacks_without_image_node (H := sample_host)
              sample_getWritable "3" sample_world) as (_ & _ & _ & Hresize).
  - intros n. vm_compute. discriminate.
  - apply Hresize.
Defined.
